(** * swaggerpy.client: the dynamic operation dispatcher

    A shallow embedding of [swaggerpy/client.py] (classes [Operation],
    [Resource] and [SwaggerClient]) together with the Python 2 builtins
    and [urllib] functions the dispatcher calls, followed by the
    properties of the dispatcher.

    Conventions.
    - Python byte strings are [string]; [unicode] and [float] values are
      not modelled.
    - A Python [dict] with string keys is a [gmap string _]: equality of
      maps is equality of their lookups, as for Python dicts.  Where
      Python iterates over a dict ([keys()], [items()], [repr]) the order
      is that of the hash table; the model enumerates in [map_to_list]
      order.
    - An exception raised by the code is a value of [Exn]; a function
      that can raise returns a [Result]. *)

From stdpp Require Import gmap strings list fin_maps pretty.
From Stdlib Require Import ZArith Ascii String.

Set Warnings "-register-all".

Open Scope Z_scope.

(** ** Python values *)

Inductive value :=
| VNone
| VBool (b : bool)
| VInt (n : Z)
| VStr (s : string)
| VList (l : list value)
| VDict (d : gmap string value).

(** ** Exceptions and the error monad *)

Inductive Exn :=
| TypeError (msg : string)
| AssertionError (msg : string)
| NotImplementedError (msg : string)
| AttributeError (msg : string)
| RuntimeError (msg : string).

Inductive Result (A : Type) :=
| Ok (a : A)
| Raise (e : Exn).
Arguments Ok {A} a.
Arguments Raise {A} e.

#[global] Instance Result_ret : MRet Result := fun A a => Ok a.
#[global] Instance Result_bind : MBind Result := fun A B f m =>
  match m with
  | Ok a => f a
  | Raise e => Raise e
  end.
#[global] Instance Result_fmap : FMap Result := fun A B f m =>
  match m with
  | Ok a => Ok (f a)
  | Raise e => Raise e
  end.

(** Monadic left fold: the body of a [for] loop run over a list, stopping
    at the first exception. *)
Fixpoint foldM {A S : Type} (body : A -> S -> Result S) (l : list A) (s : S)
  : Result S :=
  match l with
  | [] => Ok s
  | x :: l' => s' ← body x s; foldM body l' s'
  end.

(** ** Characters and text helpers *)

Definition dquote : ascii := "034"%char.
Definition squote : ascii := "'"%char.
Definition backslash : ascii := "\"%char.

Definition str1 (c : ascii) : string := String c EmptyString.

(** [dq s] is [s] between two double-quote characters. *)
Definition dq (s : string) : string := str1 dquote +:+ s +:+ str1 dquote.

Definition hex_digit (upper : bool) (n : N) : ascii :=
  if (n <? 10)%N then ascii_of_N (48 + n)
  else ascii_of_N ((if upper then 55 else 87) + n).

Definition hex2 (upper : bool) (c : ascii) : string :=
  let n := N_of_ascii c in
  String (hex_digit upper (n / 16)) (str1 (hex_digit upper (n mod 16))).

Fixpoint contains_char (c : ascii) (s : string) : bool :=
  match s with
  | EmptyString => false
  | String c' s' => Ascii.eqb c c' || contains_char c s'
  end.

Fixpoint concat_map (f : ascii -> string) (s : string) : string :=
  match s with
  | EmptyString => EmptyString
  | String c s' => f c +:+ concat_map f s'
  end.

(** [sep.join(l)] on a list of strings. *)
Fixpoint join_strs (sep : string) (l : list string) : string :=
  match l with
  | [] => EmptyString
  | [x] => x
  | x :: l' => x +:+ sep +:+ join_strs sep l'
  end.

(** ** Builtins: [type(v).__name__], [repr], [str] *)

(** [sys.maxint] of a 64-bit build: integers beyond it are [long]. *)
Definition sys_maxint : Z := 2 ^ 63 - 1.

Definition is_long (n : Z) : bool := (n <? - sys_maxint - 1) || (sys_maxint <? n).

Definition type_name (v : value) : string :=
  match v with
  | VNone => "NoneType"
  | VBool _ => "bool"
  | VInt n => if is_long n then "long" else "int"
  | VStr _ => "str"
  | VList _ => "list"
  | VDict _ => "dict"
  end.

Definition repr_char (q : ascii) (c : ascii) : string :=
  if Ascii.eqb c q || Ascii.eqb c backslash then String backslash (str1 c)
  else if Ascii.eqb c "009" then "\t"
  else if Ascii.eqb c "010" then "\n"
  else if Ascii.eqb c "013" then "\r"
  else if (N_of_ascii c <? 32)%N || (127 <=? N_of_ascii c)%N
       then "\x" +:+ hex2 false c
  else str1 c.

(** [repr(s)] of a byte string. *)
Definition repr_str (s : string) : string :=
  let q := if contains_char squote s && negb (contains_char dquote s)
           then dquote else squote in
  str1 q +:+ concat_map (repr_char q) s +:+ str1 q.

Fixpoint py_repr (v : value) : string :=
  match v with
  | VNone => "None"
  | VBool b => if b then "True" else "False"
  | VInt n => if is_long n then pretty n +:+ "L" else pretty n
  | VStr s => repr_str s
  | VList l => "[" +:+ join_strs ", " (List.map py_repr l) +:+ "]"
  | VDict d =>
      "{" +:+ join_strs ", "
                (map_fold (fun k x acc => (repr_str k +:+ ": " +:+ py_repr x) :: acc)
                          [] d)
          +:+ "}"
  end.

(** [str(v)]. *)
Definition py_str (v : value) : string :=
  match v with
  | VStr s => s
  | VInt n => pretty n
  | _ => py_repr v
  end.

(** ** [str.join], [str.replace], [re.sub('^http', ...)] *)

(** The items of [sep.join(l)]: every item must be a string. *)
Fixpoint join_items (i : nat) (l : list value) : Result (list string) :=
  match l with
  | [] => Ok []
  | VStr s :: l' => (fun r => s :: r) <$> join_items (S i) l'
  | v :: _ =>
      Raise (TypeError ("sequence item " +:+ pretty i +:+ ": expected string, "
                          +:+ type_name v +:+ " found"))
  end.

Definition str_join (sep : string) (l : list value) : Result string :=
  join_strs sep <$> join_items 0 l.

(** [s.replace(old, new)] for a non-empty [old]: every occurrence, left
    to right, without overlap.  [skip] counts the characters of a match
    that are still to be dropped. *)
Fixpoint replace_from (old new : string) (skip : nat) (s : string) : string :=
  match s with
  | EmptyString => EmptyString
  | String c s' =>
      match skip with
      | S k => replace_from old new k s'
      | O =>
          if String.prefix old s
          then new +:+ replace_from old new (Nat.pred (String.length old)) s'
          else String c (replace_from old new O s')
      end
  end.

Definition str_replace (s old new : string) : string := replace_from old new O s.

(** [re.sub('^http', repl, s)]. *)
Definition re_sub_http (repl s : string) : string :=
  if String.prefix "http" s
  then repl +:+ String.substring 4 (String.length s - 4) s
  else s.

(** ** [urllib.quote_plus] and [urllib.urlencode] *)

(** [urllib.always_safe]: letters, digits and [_.-]. *)
Definition always_safe (c : ascii) : bool :=
  let n := N_of_ascii c in
  ((65 <=? n) && (n <=? 90) || (97 <=? n) && (n <=? 122)
   || (48 <=? n) && (n <=? 57) || (n =? 95) || (n =? 46) || (n =? 45))%N.

Definition quote_plus_char (c : ascii) : string :=
  if Ascii.eqb c " " then "+"
  else if always_safe c then str1 c
  else "%" +:+ hex2 true c.

Definition quote_plus (s : string) : string := concat_map quote_plus_char s.

(** [urllib.urlencode(query)] of a dict with string keys. *)
Definition urlencode (query : gmap string value) : string :=
  join_strs "&"
    (List.map (fun kv => quote_plus (fst kv) +:+ "=" +:+ quote_plus (py_str (snd kv)))
              (map_to_list query)).

(** ** The specification model read by the client

    The JSON objects of the resource listing and of the API declarations,
    as they are once the loader and its processors have run: the
    [ClientProcessor] has added [name] to each resource entry, the loader
    [api_declaration], the [WebsocketProcessor] [is_websocket]. *)

Record ParamJson := {
  param_name : string;          (* param['name'] *)
  paramType : string;           (* param['paramType'] *)
  required : bool               (* param['required'] *)
}.

Record OperationJson := {
  nickname : string;
  httpMethod : string;
  parameters : option (list ParamJson);   (* read with .get('parameters', []) *)
  is_websocket : bool
}.

Record ApiJson := {
  path : string;
  operations : list OperationJson
}.

Record DeclJson := {
  basePath : string;
  apis : list ApiJson
}.

Record ResourceJson := {
  name : string;
  api_declaration : DeclJson
}.

Record ApiDocs := {
  docs_basePath : string;
  docs_apis : list ResourceJson
}.

(** ** The transport collaborator (tornado) *)

(** The [AsyncHTTPClient] handle; the client only reads its [defaults]. *)
Record HttpClient := {
  defaults : gmap string value
}.

(** [HTTPRequest(url, **kwargs)]. *)
Record HTTPRequest := {
  req_url : string;
  req_kwargs : gmap string value
}.

(** What [data] is bound to when it reaches the transport: a dict as the
    caller passed it, or the text that [json.dumps] returned for a dict,
    kept as [json_dumps d]. *)
Inductive BodyData :=
| raw_dict (d : gmap string value)
| json_dumps (d : gmap string value).

(** The two calls into the transport, with their arguments: the
    expressions that [Operation.__call__] yields. *)
Inductive TransportCall :=
| fetch (url method : string) (body : option BodyData)
        (headers : option (gmap string string))
| websocket_connect (request : HTTPRequest).

(** The calls a transport stub has recorded once the coroutine body has
    run up to its first [yield]: none when it raised, else the one it
    yielded. *)
Definition transport_calls (r : Result TransportCall) : list TransportCall :=
  match r with
  | Ok c => [c]
  | Raise _ => []
  end.

Definition call_url (c : TransportCall) : string :=
  match c with
  | fetch url _ _ _ => url
  | websocket_connect request => req_url request
  end.

(** ** class Operation *)

Record Operation := {
  op_uri : string;              (* self.uri *)
  op_json : OperationJson;      (* self.json *)
  op_http_client : HttpClient   (* self.http_client *)
}.

(** The local variables of [__call__] that the loop over the declared
    parameters updates. *)
Record Locals := {
  uri : string;
  params : gmap string value;
  data : option (gmap string value);
  kwargs : gmap string value
}.

(** Truth value of a dict, and of [data], which is [None] or a dict. *)
Definition dict_truth {A} (d : gmap string A) : bool := negb (Nat.eqb (size d) 0).

Definition data_truth (data : option (gmap string value)) : bool :=
  match data with
  | Some d => dict_truth d
  | None => false
  end.

Definition missing_msg (pname nick : string) : string :=
  "Missing required parameter " +:+ dq pname +:+ " for " +:+ dq nick.

Definition body_type_msg : string :=
  "Parameters of type " +:+ dq "body" +:+ " require dict input".

Definition unsupported_msg (ptype : string) : string :=
  "Unsupported paramType " +:+ ptype.

Definition unexpected_msg (nick : string) (keys : list string) : string :=
  dq nick +:+ " does not have parameters " +:+ py_repr (VList (VStr <$> keys)).

Definition websocket_body_msg : string :=
  "Sending body data with websockets not implmented".

(** [kwargs.keys()]. *)
Definition dict_keys {A} (d : gmap string A) : list string := (map_to_list d).*1.

(** How many entries a dict has under the key [k]. *)
Definition count_key {A} (k : string) (d : gmap string A) : nat :=
  List.length (filter (fun k' => k' = k) (dict_keys d)).

(** [kwargs.get(pname)]: [None] for a name that is not a key. *)
Definition dict_get (d : gmap string value) (k : string) : value :=
  default VNone (d !! k).

(** [v is None]. *)
Definition is_None (v : value) : bool :=
  match v with
  | VNone => true
  | _ => false
  end.

(** [isinstance(v, dict)]. *)
Definition is_dict (v : value) : bool :=
  match v with
  | VDict _ => true
  | _ => false
  end.

(** [x in s] on strings; a message names [x] when [x] occurs in it. *)
Fixpoint is_substring (x s : string) : bool :=
  String.prefix x s
  || match s with
     | EmptyString => false
     | String _ s' => is_substring x s'
     end.

Definition names (msg x : string) : Prop := is_substring x msg = true.

(** [if isinstance(value, list): value = ','.join(value)]. *)
Definition join_list (v : value) : Result value :=
  match v with
  | VList items => VStr <$> str_join "," items
  | _ => Ok v
  end.

(** The branch on [param['paramType']], for a value [v] that is not
    [None].  In the body case [data = value] binds the caller's dict and
    [data.update(value)] updates that same dict; the request only reads
    the resulting mapping. *)
Definition place (param : ParamJson) (v : value) (l : Locals)
  : Result Locals :=
  let pname := param_name param in
  if decide (paramType param = "path") then
    Ok {| uri := str_replace (uri l) ("{" +:+ pname +:+ "}")
                             (quote_plus (py_str v));
          params := params l; data := data l; kwargs := kwargs l |}
  else if decide (paramType param = "query") then
    Ok {| uri := uri l; params := <[pname := v]> (params l);
          data := data l; kwargs := kwargs l |}
  else if decide (paramType param = "body") then
    match v with
    | VDict d =>
        Ok {| uri := uri l; params := params l;
              data := if data_truth (data l)
                      then Some (d ∪ default ∅ (data l))   (* data.update(value) *)
                      else Some d;                          (* data = value *)
              kwargs := kwargs l |}
    | _ => Raise (TypeError body_type_msg)
    end
  else Raise (AssertionError (unsupported_msg (paramType param))).

(** [del kwargs[pname]]. *)
Definition del_kwarg (pname : string) (l : Locals) : Locals :=
  {| uri := uri l; params := params l; data := data l;
     kwargs := delete pname (kwargs l) |}.

(** One iteration of [for param in self.json.get('parameters', [])]. *)
Definition bind_param (nick : string) (param : ParamJson) (l : Locals)
  : Result Locals :=
  let pname := param_name param in
  value ← join_list (dict_get (kwargs l) pname);
  match value with
  | VNone =>
      if required param
      then Raise (TypeError (missing_msg pname nick))
      else Ok l
  | _ => l' ← place param value l; Ok (del_kwarg pname l')
  end.

(** The locals [l] with the argument [k=None] added to [kwargs]. *)
Definition with_None (k : string) (l : Locals) : Locals :=
  {| uri := uri l; params := params l; data := data l;
     kwargs := <[k := VNone]> (kwargs l) |}.

(** The parameters the operation declares. *)
Definition declared (self : Operation) : list ParamJson :=
  default [] (parameters (op_json self)).

(** The locals when the loop starts. *)
Definition locals0 (self : Operation) (kw : gmap string value) : Locals :=
  {| uri := op_uri self; params := ∅; data := None; kwargs := kw |}.

(** The whole loop, from the initial values of the locals. *)
Definition bind (self : Operation) (kw : gmap string value) : Result Locals :=
  foldM (bind_param (nickname (op_json self))) (declared self) (locals0 self kw).

Definition json_headers : gmap string string :=
  {[ "Content-type" := "application/json"; "Accept" := "application/json" ]}.

(** What follows the loop, up to the [yield]. *)
Definition synthesize (self : Operation) (l : Locals) : Result TransportCall :=
  let method := httpMethod (op_json self) in
  if dict_truth (kwargs l)
  then Raise (TypeError (unexpected_msg (nickname (op_json self))
                                        (dict_keys (kwargs l))))
  else
    let serialized := data_truth (data l) in
    let body := if serialized then json_dumps <$> data l else raw_dict <$> data l in
    let headers := if serialized then Some json_headers else None in
    let url := join_strs "?" [uri l; urlencode (params l)] in
    if is_websocket (op_json self) then
      (* uri = re.sub('^http', 'ws', uri): the new value of [uri] is not
         read again, [url] was computed before *)
      let uri' := re_sub_http "ws" (uri l) in
      if serialized
      then Raise (NotImplementedError websocket_body_msg)
      else Ok (websocket_connect
                 {| req_url := url;
                    req_kwargs := defaults (op_http_client self) |})
    else Ok (fetch url method body headers).

(** [Operation.__call__(self, **kwargs)], up to its [yield]. *)
Definition Operation_call (self : Operation) (kw : gmap string value)
  : Result TransportCall :=
  l ← bind self kw; synthesize self l.

(** ** class Resource *)

Record Resource := {
  res_json : ResourceJson;
  res_http_client : HttpClient;
  res_operations : gmap string Operation
}.

Definition build_operation (http_client : HttpClient) (decl : DeclJson)
    (api : ApiJson) (operation : OperationJson) : Operation :=
  {| op_uri := basePath decl +:+ path api;
     op_json := operation;
     op_http_client := http_client |}.

(** The [(api, oper)] pairs enumerated by
    [for api in decl['apis'] for oper in api['operations']]. *)
Definition decl_operations (decl : DeclJson) : list (ApiJson * OperationJson) :=
  api ← apis decl; oper ← operations api; [(api, oper)].

(** A dict comprehension stores its items one after the other. *)
Definition dict_comprehension {A V} (key : A -> string) (val : A -> V)
    (items : list A) : gmap string V :=
  foldl (fun m x => <[key x := val x]> m) ∅ items.

Definition Resource_init (resource : ResourceJson) (http_client : HttpClient)
  : Resource :=
  let decl := api_declaration resource in
  {| res_json := resource;
     res_http_client := http_client;
     res_operations :=
       dict_comprehension (fun ao => nickname (snd ao))
                          (fun ao => build_operation http_client decl (fst ao) (snd ao))
                          (decl_operations decl) |}.

Definition get_name (self : Resource) : string := name (res_json self).

Definition get_operation (self : Resource) (nm : string) : option Operation :=
  res_operations self !! nm.


(** ** class SwaggerClient *)

Record SwaggerClient := {
  _api_docs : option ApiDocs;
  _resources : option (gmap string Resource);
  client_http_client : HttpClient
}.

(** The [resources] property. *)
Definition resources (self : SwaggerClient) : Result (gmap string Resource) :=
  match _resources self with
  | None => Raise (RuntimeError "Not loaded")
  | Some r => Ok r
  end.

(** [SwaggerClient.__init__] on a parsed resource listing, after
    [loader.process_resource_listing] has enriched it. *)
Definition SwaggerClient_init (api_docs : ApiDocs) (http_client : HttpClient)
  : SwaggerClient :=
  {| _api_docs := Some api_docs;
     _resources :=
       Some (dict_comprehension name
                                (fun resource => Resource_init resource http_client)
                                (docs_apis api_docs));
     client_http_client := http_client |}.

Definition get_resource (self : SwaggerClient) (nm : string)
  : Result (option Resource) :=
  r ← resources self; Ok (r !! nm).


(** The [api_docs] property. *)
Definition api_docs (self : SwaggerClient) : Result ApiDocs :=
  match _api_docs self with
  | None => Raise (RuntimeError "Not loaded")
  | Some d => Ok d
  end.


(** The three [__repr__] methods: ['{0}({1})'.format(class name, ...)]. *)
Definition Operation_repr (self : Operation) : string :=
  "Operation(" +:+ nickname (op_json self) +:+ ")".

Definition Resource_repr (self : Resource) : string :=
  "Resource(" +:+ name (res_json self) +:+ ")".


(** ** class ClientProcessor, with [os.path.basename] and
    [os.path.splitext] (posixpath) *)

Definition slash : ascii := "/"%char.
Definition dot : ascii := "."%char.

(** [s.rfind(c)]: the index of the last [c] in [s], or -1.  [i] is the
    index of the head of [s], [last] the answer so far. *)
Fixpoint rfind_from (c : ascii) (s : string) (i last : Z) : Z :=
  match s with
  | EmptyString => last
  | String c' s' => rfind_from c s' (i + 1) (if Ascii.eqb c' c then i else last)
  end.

Definition rfind (s : string) (c : ascii) : Z := rfind_from c s 0 (-1).

(** The slices [s[n:]] and [s[:n]]. *)
Fixpoint str_drop (n : nat) (s : string) : string :=
  match n, s with
  | O, _ => s
  | S _, EmptyString => EmptyString
  | S n', String _ s' => str_drop n' s'
  end.

Fixpoint str_take (n : nat) (s : string) : string :=
  match n, s with
  | O, _ => EmptyString
  | S _, EmptyString => EmptyString
  | S n', String c s' => String c (str_take n' s')
  end.

Fixpoint all_char (c : ascii) (s : string) : bool :=
  match s with
  | EmptyString => true
  | String c' s' => Ascii.eqb c' c && all_char c s'
  end.

(** [posixpath.basename(p)]: [i = p.rfind('/') + 1; return p[i:]]. *)
Definition basename (p : string) : string :=
  str_drop (Z.to_nat (rfind p slash + 1)) p.

(** [posixpath.splitext(p)], that is [genericpath._splitext(p, '/',
    None, '.')]: the split is at the last dot when that dot comes after
    the last slash and the [while] loop finds a character other than a
    dot between the two, that is when [p[sepIndex+1:dotIndex]] is not
    made of dots only. *)
Definition splitext (p : string) : string * string :=
  let sepIndex := rfind p slash in
  let dotIndex := rfind p dot in
  if (sepIndex <? dotIndex)
     && negb (all_char dot (str_take (Z.to_nat (dotIndex - (sepIndex + 1)))
                                     (str_drop (Z.to_nat (sepIndex + 1)) p)))
  then (str_take (Z.to_nat dotIndex) p, str_drop (Z.to_nat dotIndex) p)
  else (p, EmptyString).

(** An entry of the resource listing: its [path], and the [name] the
    processor adds. *)
Record ListingApiJson := {
  listing_path : string;
  listing_name : option string
}.

(** [ClientProcessor.process_resource_listing_api]. *)
Definition process_resource_listing_api (listing_api : ListingApiJson)
  : ListingApiJson :=
  let name_ext := splitext (basename (listing_path listing_api)) in
  {| listing_path := listing_path listing_api;
     listing_name := Some (fst name_ext) |}.

(** [isinstance(v, list)] and [isinstance(v, str)]. *)
Definition is_list (v : value) : bool :=
  match v with
  | VList _ => true
  | _ => false
  end.

Definition is_str (v : value) : bool :=
  match v with
  | VStr _ => true
  | _ => false
  end.

(** The request of an operation whose loop left [uri] as it was and
    bound nothing. *)
Definition plain_request (self : Operation) : TransportCall :=
  if is_websocket (op_json self)
  then websocket_connect {| req_url := op_uri self +:+ "?";
                            req_kwargs := defaults (op_http_client self) |}
  else fetch (op_uri self +:+ "?") (httpMethod (op_json self)) None None.

(** ** Sample descriptors and arguments *)

Definition sample_client : HttpClient := {| defaults := ∅ |}.

Definition param (n t : string) (r : bool) : ParamJson :=
  {| param_name := n; paramType := t; required := r |}.

Definition operation (u nick : string) (ps : list ParamJson) (ws : bool)
  : Operation :=
  {| op_uri := u;
     op_json := {| nickname := nick; httpMethod := "GET";
                   parameters := Some ps; is_websocket := ws |};
     op_http_client := sample_client |}.

(** An optional body parameter declared before a required query one. *)
Definition listThings : Operation :=
  operation "http://x/api/things" "listThings"
            [param "filter" "body" false; param "limit" "query" true] false.

(** One required path parameter. *)
Definition getThing : Operation :=
  operation "http://x/api/things/{id}" "getThing" [param "id" "path" true] false.

(** Two optional body parameters. *)
Definition putThing : Operation :=
  operation "http://x/api/things" "putThing"
            [param "a" "body" false; param "b" "body" false] false.

(** A parameter with a location the client does not support, declared
    before a body parameter. *)
Definition tagThing : Operation :=
  operation "http://x/api/things" "tagThing"
            [param "trace" "header" false; param "tags" "body" false] false.

(** An optional query parameter declared before a required one. *)
Definition searchThings : Operation :=
  operation "http://x/api/things" "searchThings"
            [param "tag" "query" false; param "limit" "query" true] false.

(** A websocket operation with one required query parameter. *)
Definition eventWebsocket : Operation :=
  operation "http://x/api/events" "eventWebsocket"
            [param "app" "query" true] true.

(** A websocket operation with a body parameter. *)
Definition sendEvent : Operation :=
  operation "http://x/api/events" "sendEvent" [param "event" "body" false] true.

(** The declaration of the spec's example: base path [http://x/api],
    API path [/things/{id}], and a second operation that reuses the
    nickname of the first. *)
Definition getThing_json : OperationJson :=
  {| nickname := "getThing"; httpMethod := "GET";
     parameters := Some [param "id" "path" true]; is_websocket := false |}.

Definition getThing_again_json : OperationJson :=
  {| nickname := "getThing"; httpMethod := "DELETE";
     parameters := None; is_websocket := false |}.

Definition things_api : ApiJson :=
  {| path := "/things/{id}"; operations := [getThing_json] |}.

Definition things_decl : DeclJson :=
  {| basePath := "http://x/api"; apis := [things_api] |}.

Definition things_resource : ResourceJson :=
  {| name := "things"; api_declaration := things_decl |}.

Definition twice_api : ApiJson :=
  {| path := "/things/{id}"; operations := [getThing_json; getThing_again_json] |}.

Definition twice_decl : DeclJson :=
  {| basePath := "http://x/api"; apis := [twice_api] |}.

Definition twice_resource : ResourceJson :=
  {| name := "things"; api_declaration := twice_decl |}.

(** A listing whose two entries have the same name. *)
Definition twice_docs : ApiDocs :=
  {| docs_basePath := "http://x/api"; docs_apis := [things_resource; twice_resource] |}.

(** * Properties *)

(** ** The builtins on sample inputs *)

Example quote_plus_comma : quote_plus "a,b" = "a%2Cb".
Proof. reflexivity. Qed.

Example quote_plus_space : quote_plus "a b/c" = "a+b%2Fc".
Proof. reflexivity. Qed.

Example str_replace_all : str_replace "/x/{id}/y/{id}" "{id}" "7" = "/x/7/y/7".
Proof. reflexivity. Qed.

Example re_sub_https : re_sub_http "ws" "https://h/p" = "wss://h/p".
Proof. reflexivity. Qed.

Example repr_keys :
  py_repr (VList [VStr "a"; VStr "it's"]) = "['a', " +:+ dq "it's" +:+ "]".
Proof. reflexivity. Qed.

(** ** The error monad and the binding loop *)

Lemma bind_Ok {A B} (m : Result A) (f : A -> Result B) b :
  m ≫= f = Ok b -> exists a, m = Ok a /\ f a = Ok b.
Proof. destruct m as [a|e]; simpl; [eauto | discriminate]. Qed.

Lemma foldM_app {A S} (body : A -> S -> Result S) l1 l2 s :
  foldM body (l1 ++ l2) s = foldM body l1 s ≫= foldM body l2.
Proof.
  revert s. induction l1 as [|x l1 IH]; intros s; simpl; [done|].
  destruct (body x s) as [s'|e]; simpl; [apply IH | done].
Qed.

Lemma join_list_is_None v v' : join_list v = Ok v' -> is_None v' = is_None v.
Proof.
  destruct v; simpl; try (intros; simplify_eq; done).
  unfold str_join. destruct (join_items 0 l); simpl; intros; simplify_eq; done.
Qed.

Lemma place_kwargs p v l l' : place p v l = Ok l' -> kwargs l' = kwargs l.
Proof.
  unfold place. repeat case_decide; try destruct v; intros; simplify_eq; done.
Qed.

(** An iteration leaves [kwargs] alone when the looked-up value is
    [None], and deletes the parameter's name otherwise. *)
Lemma bind_param_kwargs nick p l l' :
  bind_param nick p l = Ok l' ->
  kwargs l' = if is_None (dict_get (kwargs l) (param_name p))
              then kwargs l else delete (param_name p) (kwargs l).
Proof.
  unfold bind_param. intros (v & Hj & H)%bind_Ok.
  rewrite <- (join_list_is_None _ _ Hj).
  destruct v; simpl in *;
    try (apply bind_Ok in H as (l1 & Hp%place_kwargs & ?); simplify_eq; simpl; congruence).
  destruct (required p); simplify_eq; done.
Qed.

(** A required parameter whose looked-up value is [None] stops the loop. *)
Lemma bind_param_missing nick p l :
  required p = true -> is_None (dict_get (kwargs l) (param_name p)) = true ->
  bind_param nick p l = Raise (TypeError (missing_msg (param_name p) nick)).
Proof.
  intros Hr Hn. unfold bind_param.
  destruct (dict_get _ _); try discriminate. simpl. by rewrite Hr.
Qed.

(** Names looked up as [None] stay so through an iteration. *)
Lemma bind_param_keeps_None nick p l l' k :
  bind_param nick p l = Ok l' ->
  is_None (dict_get (kwargs l) k) = true -> is_None (dict_get (kwargs l') k) = true.
Proof.
  intros H%bind_param_kwargs Hk. rewrite H.
  destruct (is_None (dict_get (kwargs l) (param_name p))) eqn:E; [done|].
  unfold dict_get in *. destruct (decide (param_name p = k)) as [->|].
  - by rewrite lookup_delete_eq.
  - by rewrite lookup_delete_ne.
Qed.

Lemma foldM_keeps_None nick ps l l' k :
  foldM (bind_param nick) ps l = Ok l' ->
  is_None (dict_get (kwargs l) k) = true -> is_None (dict_get (kwargs l') k) = true.
Proof.
  revert l. induction ps as [|p ps IH]; intros l; simpl.
  - by intros [= ->].
  - intros (l1 & H1 & H2)%bind_Ok Hk. eauto using bind_param_keeps_None.
Qed.

(** An argument explicitly bound to [None] is never deleted. *)
Lemma bind_param_keeps_explicit_None nick p l l' k :
  bind_param nick p l = Ok l' ->
  kwargs l !! k = Some VNone -> kwargs l' !! k = Some VNone.
Proof.
  intros H%bind_param_kwargs Hk. rewrite H.
  destruct (is_None (dict_get (kwargs l) (param_name p))) eqn:E; [done|].
  destruct (decide (param_name p = k)) as [Heq|].
  - unfold dict_get in E. rewrite Heq, Hk in E. done.
  - by rewrite lookup_delete_ne.
Qed.

Lemma foldM_keeps_explicit_None nick ps l l' k :
  foldM (bind_param nick) ps l = Ok l' ->
  kwargs l !! k = Some VNone -> kwargs l' !! k = Some VNone.
Proof.
  revert l. induction ps as [|p ps IH]; intros l; simpl.
  - by intros [= ->].
  - intros (l1 & H1 & H2)%bind_Ok Hk. eauto using bind_param_keeps_explicit_None.
Qed.

(** An argument no parameter is named after is never deleted. *)
Lemma bind_param_keeps_other nick p l l' k :
  bind_param nick p l = Ok l' -> param_name p ≠ k -> kwargs l' !! k = kwargs l !! k.
Proof.
  intros H%bind_param_kwargs Hk. rewrite H.
  destruct (is_None _); [done|]. by rewrite lookup_delete_ne.
Qed.

Lemma foldM_keeps_other nick ps l l' k :
  foldM (bind_param nick) ps l = Ok l' ->
  (forall p, p ∈ ps -> param_name p ≠ k) -> kwargs l' !! k = kwargs l !! k.
Proof.
  revert l. induction ps as [|p ps IH]; intros l; simpl.
  - by intros [= ->].
  - intros (l1 & H1 & H2)%bind_Ok Hk.
    rewrite (IH _ H2); [|intros; apply Hk; by right].
    apply (bind_param_keeps_other _ _ _ _ _ H1). apply Hk. by left.
Qed.

(** *** Messages *)

Lemma app_cons c (a s : string) : String c a +:+ s = String c (a +:+ s).
Proof. reflexivity. Qed.

Lemma prefix_app (x s : string) : String.prefix x (x +:+ s) = true.
Proof.
  induction x as [|c x IH]; [by destruct s|].
  rewrite ?app_cons; simpl. destruct (ascii_dec c c); [done | congruence].
Qed.

Lemma prefix_refl (x : string) : String.prefix x x = true.
Proof.
  induction x as [|c x IH]; [done|]. simpl. destruct (ascii_dec c c); [done | congruence].
Qed.

Lemma prefix_app_l (x s b : string) :
  String.prefix x s = true -> String.prefix x (s +:+ b) = true.
Proof.
  revert s. induction x as [|c x IH]; intros s; [by destruct (s +:+ b)|].
  destruct s as [|c' s]; simpl; [done|]. rewrite ?app_cons; simpl.
  destruct (ascii_dec c c'); [apply IH | done].
Qed.

Lemma is_substring_prefix (x s : string) :
  String.prefix x s = true -> is_substring x s = true.
Proof. intros H. destruct s; simpl in *; rewrite H; done. Qed.

Lemma names_here (x s : string) : names (x +:+ s) x.
Proof. apply is_substring_prefix, prefix_app. Qed.

Lemma is_substring_nil (x : string) :
  is_substring x EmptyString = String.prefix x EmptyString.
Proof. simpl. apply orb_false_r. Qed.

Lemma is_substring_cons (x : string) c (s : string) :
  is_substring x (String c s) = String.prefix x (String c s) || is_substring x s.
Proof. reflexivity. Qed.

Lemma names_app_r (a s x : string) : names s x -> names (a +:+ s) x.
Proof.
  unfold names. intros H. induction a as [|c a IH]; [done|].
  rewrite app_cons, is_substring_cons, IH. apply orb_true_r.
Qed.

Lemma names_app_l (s b x : string) : names s x -> names (s +:+ b) x.
Proof.
  unfold names. induction s as [|c s IH].
  - rewrite is_substring_nil. intros H. apply is_substring_prefix.
    by apply (prefix_app_l x EmptyString b).
  - rewrite app_cons, !is_substring_cons. intros [H|H]%orb_true_iff.
    + apply (prefix_app_l _ _ b) in H. rewrite app_cons in H. by rewrite H.
    + rewrite (IH H). apply orb_true_r.
Qed.

Lemma names_dq (s : string) : names (dq s) s.
Proof. unfold dq. apply names_app_r, names_here. Qed.

Lemma missing_msg_names pname nick :
  names (missing_msg pname nick) pname /\ names (missing_msg pname nick) nick.
Proof.
  unfold missing_msg. split.
  - apply names_app_r, names_app_l, names_dq.
  - do 3 apply names_app_r. apply names_dq.
Qed.

Lemma Operation_call_bind_Raise self kw e :
  bind self kw = Raise e -> Operation_call self kw = Raise e.
Proof. unfold Operation_call. by intros ->. Qed.

(** The loop split at a declared parameter. *)
Lemma bind_split self kw pre p post :
  declared self = pre ++ p :: post ->
  bind self kw =
    l ← foldM (bind_param (nickname (op_json self))) pre (locals0 self kw);
    l' ← bind_param (nickname (op_json self)) p l;
    foldM (bind_param (nickname (op_json self))) post l'.
Proof. unfold bind. intros ->. by rewrite foldM_app. Qed.

(** C1 (amended).  When a declared parameter marked required is absent
    from the arguments, the invocation fails and no transport call is
    made.  The loop stops at the first parameter that raises: when all
    the parameters declared before the absent one bind, the error is
    the [TypeError] whose message gives the name of the parameter and
    the nickname of the operation. *)
Theorem C1_missing_required_parameter (self : Operation)
    (kw : gmap string value) (pre : list ParamJson) (p : ParamJson)
    (post : list ParamJson) :
  declared self = pre ++ p :: post ->
  required p = true ->
  kw !! param_name p = None ->
  let nick := nickname (op_json self) in
  (exists e, Operation_call self kw = Raise e) /\
  transport_calls (Operation_call self kw) = [] /\
  (forall l, foldM (bind_param nick) pre (locals0 self kw) = Ok l ->
     Operation_call self kw = Raise (TypeError (missing_msg (param_name p) nick))) /\
  names (missing_msg (param_name p) nick) (param_name p) /\
  names (missing_msg (param_name p) nick) nick.
Proof.
  intros Hd Hr Hk nick.
  assert (Hreach : forall l, foldM (bind_param nick) pre (locals0 self kw) = Ok l ->
            Operation_call self kw = Raise (TypeError (missing_msg (param_name p) nick))).
  { intros l Hl. apply Operation_call_bind_Raise.
    rewrite (bind_split _ _ _ _ _ Hd). fold nick. rewrite Hl. simpl.
    rewrite bind_param_missing; [done | done |].
    apply (foldM_keeps_None _ _ _ _ _ Hl). unfold dict_get. simpl. by rewrite Hk. }
  assert (Hfail : exists e, Operation_call self kw = Raise e).
  { destruct (foldM (bind_param nick) pre (locals0 self kw)) as [l|e] eqn:Hl; [eauto|].
    exists e. apply Operation_call_bind_Raise.
    rewrite (bind_split _ _ _ _ _ Hd). fold nick. by rewrite Hl. }
  split; [done|]. split; [by destruct Hfail as [e ->]|].
  split; [done|]. apply missing_msg_names.
Qed.


Lemma C1_missing_required_parameter_witness :
  (exists e, Operation_call listThings {[ "filter" := VDict ∅ ]} = Raise e) /\
  transport_calls (Operation_call listThings {[ "filter" := VDict ∅ ]}) = [] /\
  (forall l, foldM (bind_param "listThings") [param "filter" "body" false]
                   (locals0 listThings {[ "filter" := VDict ∅ ]}) = Ok l ->
     Operation_call listThings {[ "filter" := VDict ∅ ]}
     = Raise (TypeError (missing_msg "limit" "listThings"))) /\
  names (missing_msg "limit" "listThings") "limit" /\
  names (missing_msg "limit" "listThings") "listThings".
Proof.
  apply (C1_missing_required_parameter listThings {[ "filter" := VDict ∅ ]}
           [param "filter" "body" false] (param "limit" "query" true) []);
    reflexivity.
Defined.

Lemma C1_counterexample :
  param "limit" "query" true ∈ declared listThings /\
  required (param "limit" "query" true) = true /\
  ({[ "filter" := VInt 5 ]} : gmap string value) !! "limit" = None /\
  Operation_call listThings {[ "filter" := VInt 5 ]} = Raise (TypeError body_type_msg) /\
  Operation_call listThings {[ "filter" := VInt 5 ]}
    <> Raise (TypeError (missing_msg "limit" "listThings")) /\
  ~ names body_type_msg "limit" /\ ~ names body_type_msg "listThings".
Proof.
  split; [right; left|]. repeat split; try done; vm_compute; congruence.
Qed.

Lemma dict_truth_true {A} (d : gmap string A) : dict_truth d = true <-> d ≠ ∅.
Proof.
  unfold dict_truth. rewrite negb_true_iff, Nat.eqb_neq.
  by rewrite map_size_empty_iff.
Qed.

Lemma dict_truth_false {A} (d : gmap string A) : dict_truth d = false <-> d = ∅.
Proof.
  unfold dict_truth. rewrite negb_false_iff, Nat.eqb_eq.
  apply map_size_empty_iff.
Qed.

Lemma elem_of_dict_keys {A} (d : gmap string A) k :
  k ∈ dict_keys d <-> is_Some (d !! k).
Proof.
  unfold dict_keys. rewrite list_elem_of_fmap. split.
  - intros ([k' v] & -> & H%elem_of_map_to_list). eauto.
  - intros [v H]. exists (k, v). split; [done|]. by apply elem_of_map_to_list.
Qed.

Lemma names_join sep (l : list string) x : x ∈ l -> names (join_strs sep l) x.
Proof.
  induction l as [|y l IH]; [by intros ?%elem_of_nil|].
  intros [->|H]%elem_of_cons.
  - destruct l; simpl; [|apply names_here].
    apply is_substring_prefix, prefix_refl.
  - destruct l as [|z l]; [by apply elem_of_nil in H|].
    change (join_strs sep (y :: z :: l)) with (y +:+ sep +:+ join_strs sep (z :: l)).
    do 2 apply names_app_r. by apply IH.
Qed.

Lemma py_repr_keys (keys : list string) :
  py_repr (VList (VStr <$> keys)) = "[" +:+ join_strs ", " (repr_str <$> keys) +:+ "]".
Proof.
  simpl. do 3 f_equal. induction keys as [|k keys IH]; [done|].
  cbn [fmap list_fmap List.map py_repr]. by rewrite IH.
Qed.

Lemma unexpected_msg_names nick (keys : list string) :
  names (unexpected_msg nick keys) nick /\
  (forall k, k ∈ keys -> names (unexpected_msg nick keys) (repr_str k)).
Proof.
  unfold unexpected_msg. split.
  - apply names_app_l, names_dq.
  - intros k Hk. rewrite py_repr_keys.
    do 3 apply names_app_r. apply names_app_l, names_join.
    apply list_elem_of_fmap. eauto.
Qed.

(** What is left in [kwargs] was passed by the caller. *)
Lemma bind_param_kwargs_subseteq nick p l l' :
  bind_param nick p l = Ok l' -> kwargs l' ⊆ kwargs l.
Proof.
  intros ->%bind_param_kwargs. destruct (is_None _); [done|].
  apply delete_subseteq.
Qed.

Lemma foldM_kwargs_subseteq nick ps l l' :
  foldM (bind_param nick) ps l = Ok l' -> kwargs l' ⊆ kwargs l.
Proof.
  revert l. induction ps as [|p ps IH]; intros l; simpl.
  - by intros [= ->].
  - intros (l1 & H1 & H2)%bind_Ok.
    etrans; [by apply IH | by eapply bind_param_kwargs_subseteq].
Qed.

Lemma synthesize_leftover self l :
  kwargs l ≠ ∅ ->
  synthesize self l
  = Raise (TypeError (unexpected_msg (nickname (op_json self)) (dict_keys (kwargs l)))).
Proof. intros H%dict_truth_true. unfold synthesize. by rewrite H. Qed.

(** C2.  Once the loop over the declared parameters has completed, if
    [kwargs] still holds arguments the invocation raises the
    [TypeError] whose message gives the nickname of the operation and
    the list of the names left, and no transport call is made.  The
    arguments left are arguments of the caller, and every argument
    whose name no parameter declares is among them. *)
Theorem C2_unexpected_parameters (self : Operation) (kw : gmap string value)
    (l : Locals) :
  bind self kw = Ok l ->
  kwargs l ≠ ∅ ->
  Operation_call self kw
  = Raise (TypeError (unexpected_msg (nickname (op_json self)) (dict_keys (kwargs l)))) /\
  transport_calls (Operation_call self kw) = [] /\
  names (unexpected_msg (nickname (op_json self)) (dict_keys (kwargs l)))
        (nickname (op_json self)) /\
  (forall k, is_Some (kwargs l !! k) ->
     names (unexpected_msg (nickname (op_json self)) (dict_keys (kwargs l)))
           (repr_str k)) /\
  (forall k, is_Some (kwargs l !! k) -> kwargs l !! k = kw !! k) /\
  (forall k, (forall p, p ∈ declared self -> param_name p ≠ k) ->
     kwargs l !! k = kw !! k).
Proof.
  intros Hb Hne.
  assert (Hc : Operation_call self kw
    = Raise (TypeError (unexpected_msg (nickname (op_json self)) (dict_keys (kwargs l))))).
  { unfold Operation_call. rewrite Hb. simpl. by apply synthesize_leftover. }
  split; [done|]. split; [by rewrite Hc|].
  destruct (unexpected_msg_names (nickname (op_json self)) (dict_keys (kwargs l)))
    as [Hn Hks].
  split; [done|]. split; [intros k Hk; by apply Hks, elem_of_dict_keys|].
  split.
  - intros k [v Hv]. rewrite Hv. symmetry.
    by apply (lookup_weaken _ _ _ _ Hv), (foldM_kwargs_subseteq _ _ _ _ Hb).
  - intros k Hk. by apply (foldM_keeps_other _ _ _ _ _ Hb).
Qed.

Lemma C2_unexpected_parameters_witness :
  bind getThing {[ "id" := VInt 42; "colour" := VStr "red" ]}
  = Ok {| uri := "http://x/api/things/42"; params := ∅; data := None;
          kwargs := {[ "colour" := VStr "red" ]} |} /\
  ({[ "colour" := VStr "red" ]} : gmap string value) ≠ ∅ /\
  Operation_call getThing {[ "id" := VInt 42; "colour" := VStr "red" ]}
  = Raise (TypeError (unexpected_msg "getThing" ["colour"])).
Proof.
  assert (H1 : bind getThing {[ "id" := VInt 42; "colour" := VStr "red" ]}
               = Ok {| uri := "http://x/api/things/42"; params := ∅; data := None;
                       kwargs := {[ "colour" := VStr "red" ]} |}) by reflexivity.
  assert (H2 : ({[ "colour" := VStr "red" ]} : gmap string value) ≠ ∅)
    by (vm_compute; discriminate).
  split; [exact H1|]. split; [exact H2|].
  exact (proj1 (C2_unexpected_parameters _ _ _ H1 H2)).
Defined.

(** ** After the loop *)

Lemma synthesize_fetch self l :
  kwargs l = ∅ -> is_websocket (op_json self) = false ->
  synthesize self l
  = Ok (fetch (uri l +:+ "?" +:+ urlencode (params l)) (httpMethod (op_json self))
              (if data_truth (data l) then json_dumps <$> data l
               else raw_dict <$> data l)
              (if data_truth (data l) then Some json_headers else None)).
Proof.
  intros Hk%dict_truth_false Hw. unfold synthesize. by rewrite Hk, Hw.
Qed.

Lemma synthesize_connect self l :
  kwargs l = ∅ -> is_websocket (op_json self) = true ->
  data_truth (data l) = false ->
  synthesize self l
  = Ok (websocket_connect
          {| req_url := uri l +:+ "?" +:+ urlencode (params l);
             req_kwargs := defaults (op_http_client self) |}).
Proof.
  intros Hk%dict_truth_false Hw Hd. unfold synthesize. by rewrite Hk, Hw, Hd.
Qed.

Lemma synthesize_websocket_body self l :
  kwargs l = ∅ -> is_websocket (op_json self) = true ->
  data_truth (data l) = true ->
  synthesize self l = Raise (NotImplementedError websocket_body_msg).
Proof.
  intros Hk%dict_truth_false Hw Hd. unfold synthesize. by rewrite Hk, Hw, Hd.
Qed.


Lemma synthesize_no_body_url self l :
  kwargs l = ∅ -> data_truth (data l) = false ->
  call_url <$> synthesize self l = Ok (uri l +:+ "?" +:+ urlencode (params l)).
Proof.
  intros Hk Hd. destruct (is_websocket (op_json self)) eqn:Hw.
  - by rewrite synthesize_connect.
  - by rewrite synthesize_fetch.
Qed.

(** ** Path parameters *)

Lemma join_items_strs (i : nat) (items : list string) :
  join_items i (VStr <$> items) = Ok items.
Proof.
  revert i. induction items as [|x items IH]; intros i; [done|].
  cbn [fmap list_fmap join_items]. fold (@fmap list _ _ _ VStr items).
  by rewrite IH.
Qed.

Lemma join_list_strs (items : list string) :
  join_list (VList (VStr <$> items)) = Ok (VStr (join_strs "," items)).
Proof. unfold join_list, str_join. by rewrite join_items_strs. Qed.

Lemma urlencode_empty : urlencode ∅ = EmptyString.
Proof. unfold urlencode. by rewrite map_to_list_empty. Qed.

Lemma bind_param_path_list nick p l (items : list string) :
  paramType p = "path" ->
  kwargs l !! param_name p = Some (VList (VStr <$> items)) ->
  bind_param nick p l
  = Ok {| uri := str_replace (uri l) ("{" +:+ param_name p +:+ "}")
                             (quote_plus (join_strs "," items));
          params := params l; data := data l;
          kwargs := delete (param_name p) (kwargs l) |}.
Proof.
  intros Hp Hk. unfold bind_param, dict_get. rewrite Hk. simpl default.
  rewrite join_list_strs. simpl. unfold place. by rewrite decide_True.
Qed.

(** C3 (amended).  A list bound to a [path] parameter is joined with
    commas and the joined string is then percent-encoded by
    [quote_plus] before it replaces every [{name}] placeholder: for the
    list ["a","b"] the text put into the URI is [a%2Cb], the encoded
    form of [a,b].  This holds at the iteration that binds the
    parameter, and for the URL of an operation that declares just this
    parameter. *)
Theorem C3_path_list_is_percent_encoded (nick : string) (p : ParamJson)
    (l : Locals) (items : list string) :
  paramType p = "path" ->
  kwargs l !! param_name p = Some (VList (VStr <$> items)) ->
  bind_param nick p l
  = Ok {| uri := str_replace (uri l) ("{" +:+ param_name p +:+ "}")
                             (quote_plus (join_strs "," items));
          params := params l; data := data l;
          kwargs := delete (param_name p) (kwargs l) |} /\
  quote_plus (join_strs "," ["a"; "b"]) = "a%2Cb" /\
  (forall self : Operation,
     declared self = [p] ->
     call_url <$> Operation_call self {[ param_name p := VList (VStr <$> items) ]}
     = Ok (str_replace (op_uri self) ("{" +:+ param_name p +:+ "}")
                       (quote_plus (join_strs "," items)) +:+ "?")).
Proof.
  intros Hp Hk.
  split; [by apply bind_param_path_list|]. split; [reflexivity|].
  intros self Hd. unfold Operation_call, bind. rewrite Hd. cbn [foldM].
  rewrite (bind_param_path_list _ _ _ items Hp);
    [|apply lookup_singleton_eq].
  cbn [mbind Result_bind locals0 kwargs uri params data].
  rewrite delete_singleton_eq, synthesize_no_body_url; [|done..].
  cbn [uri params]. by rewrite urlencode_empty.
Qed.

Lemma C3_path_list_is_percent_encoded_witness :
  paramType (param "id" "path" true) = "path" /\
  kwargs (locals0 getThing {[ "id" := VList [VStr "a"; VStr "b"] ]}) !! "id"
  = Some (VList (VStr <$> ["a"; "b"])) /\
  call_url <$> Operation_call getThing {[ "id" := VList [VStr "a"; VStr "b"] ]}
  = Ok "http://x/api/things/a%2Cb?".
Proof.
  assert (H1 : paramType (param "id" "path" true) = "path") by reflexivity.
  assert (H2 : kwargs (locals0 getThing {[ "id" := VList [VStr "a"; VStr "b"] ]})
               !! param_name (param "id" "path" true)
               = Some (VList (VStr <$> ["a"; "b"]))) by reflexivity.
  split; [exact H1|]. split; [exact H2|].
  exact (proj2 (proj2 (C3_path_list_is_percent_encoded "getThing" _ _ _ H1 H2))
               getThing eq_refl).
Defined.

Lemma C3_counterexample :
  call_url <$> Operation_call getThing {[ "id" := VList [VStr "a"; VStr "b"] ]}
  = Ok "http://x/api/things/a%2Cb?" /\
  call_url <$> Operation_call getThing {[ "id" := VList [VStr "a"; VStr "b"] ]}
  <> Ok "http://x/api/things/a,b?" /\
  ~ names "http://x/api/things/a%2Cb?" "a,b".
Proof. repeat split; vm_compute; congruence. Qed.

(** ** Body parameters *)

Lemma place_body_dict p d l :
  paramType p = "body" ->
  place p (VDict d) l
  = Ok {| uri := uri l; params := params l;
          data := Some (d ∪ default ∅ (data l)); kwargs := kwargs l |}.
Proof.
  intros Hp. unfold place. rewrite Hp.
  repeat (case_decide; [discriminate|]). rewrite decide_True by done.
  do 2 f_equal. destruct (data_truth (data l)) eqn:Ht; [done|].
  f_equal. destruct (data l) as [d0|]; simpl in *.
  - apply dict_truth_false in Ht as ->. by rewrite (right_id_L ∅ (∪)).
  - by rewrite (right_id_L ∅ (∪)).
Qed.

Lemma place_body_mismatch p v l :
  paramType p = "body" -> is_dict v = false ->
  place p v l = Raise (TypeError body_type_msg).
Proof.
  intros Hp Hv. unfold place. rewrite Hp.
  repeat (case_decide; [discriminate|]). rewrite decide_True by done.
  by destruct v.
Qed.

(** A body parameter bound to a dict merges it over the mapping
    gathered so far. *)
Lemma bind_param_body_dict nick p l d :
  paramType p = "body" ->
  kwargs l !! param_name p = Some (VDict d) ->
  bind_param nick p l
  = Ok {| uri := uri l; params := params l;
          data := Some (d ∪ default ∅ (data l));
          kwargs := delete (param_name p) (kwargs l) |}.
Proof.
  intros Hp Hk. unfold bind_param, dict_get. rewrite Hk. simpl.
  by rewrite place_body_dict.
Qed.

Lemma join_list_is_dict v v' : join_list v = Ok v' -> is_dict v' = is_dict v.
Proof.
  destruct v; simpl; try (intros; simplify_eq; done).
  unfold str_join. destruct (join_items 0 l); simpl; intros; simplify_eq; done.
Qed.

(** A body parameter bound to anything else than [None] or a dict
    raises: the error of [','.join] for a list that holds a non-string,
    else the error of the body branch. *)
Lemma bind_param_body_mismatch nick p l v :
  paramType p = "body" ->
  kwargs l !! param_name p = Some v ->
  is_None v = false -> is_dict v = false ->
  bind_param nick p l
  = match join_list v with
    | Ok _ => Raise (TypeError body_type_msg)
    | Raise e => Raise e
    end.
Proof.
  intros Hp Hk Hn Hd. unfold bind_param, dict_get. rewrite Hk. simpl default.
  destruct (join_list v) as [v'|e] eqn:Hj; [|done]. simpl.
  pose proof (join_list_is_None _ _ Hj) as Hn'. rewrite Hn in Hn'.
  pose proof (join_list_is_dict _ _ Hj) as Hd'. rewrite Hd in Hd'.
  destruct v'; try discriminate; by rewrite place_body_mismatch.
Qed.

(** C4 (amended).  For an operation that declares two [body] parameters
    and is called with a mapping for each, the loop ends with [data]
    bound to the second mapping merged over the first, so that a shared
    key has the value of the later-declared parameter; [{a:1}] and
    [{b:2}] give [{a:1,b:2}], and a plain operation sends the merged
    mapping serialized.  For any operation, a value that is neither
    [None] nor a mapping, supplied for a body parameter that is the
    first declared under its name, makes the invocation fail before any
    transport call; when every parameter declared before it binds, the
    error is the [TypeError] of the body branch, or that of [','.join]
    for a list holding a non-string. *)
Theorem C4_body_parameters (self : Operation) (pa pb : ParamJson)
    (d1 d2 : gmap string value) :
  declared self = [pa; pb] ->
  paramType pa = "body" -> paramType pb = "body" ->
  param_name pa ≠ param_name pb ->
  bind self {[ param_name pa := VDict d1; param_name pb := VDict d2 ]}
  = Ok {| uri := op_uri self; params := ∅; data := Some (d2 ∪ d1); kwargs := ∅ |} /\
  (is_websocket (op_json self) = false -> d2 ∪ d1 ≠ ∅ ->
   Operation_call self {[ param_name pa := VDict d1; param_name pb := VDict d2 ]}
   = Ok (fetch (op_uri self +:+ "?") (httpMethod (op_json self))
               (Some (json_dumps (d2 ∪ d1))) (Some json_headers))) /\
  (forall k v, d2 !! k = Some v -> (d2 ∪ d1) !! k = Some v) /\
  (forall k, d2 !! k = None -> (d2 ∪ d1) !! k = d1 !! k) /\
  ({[ "b" := VInt 2 ]} ∪ {[ "a" := VInt 1 ]}
   = ({[ "a" := VInt 1; "b" := VInt 2 ]} : gmap string value)) /\
  (forall (op : Operation) (kw : gmap string value) pre p post v,
     declared op = pre ++ p :: post ->
     (forall q, q ∈ pre -> param_name q ≠ param_name p) ->
     paramType p = "body" ->
     kw !! param_name p = Some v ->
     is_None v = false -> is_dict v = false ->
     transport_calls (Operation_call op kw) = [] /\
     (forall l, foldM (bind_param (nickname (op_json op))) pre (locals0 op kw) = Ok l ->
        Operation_call op kw
        = match join_list v with
          | Ok _ => Raise (TypeError body_type_msg)
          | Raise e => Raise e
          end)).
Proof.
  intros Hd Ha Hb Hne.
  assert (Hbind :
    bind self {[ param_name pa := VDict d1; param_name pb := VDict d2 ]}
    = Ok {| uri := op_uri self; params := ∅; data := Some (d2 ∪ d1); kwargs := ∅ |}).
  { unfold bind. rewrite Hd. cbn [foldM].
    rewrite (bind_param_body_dict _ _ _ d1 Ha) by apply lookup_insert_eq.
    cbn [mbind Result_bind locals0 kwargs uri params data default].
    rewrite delete_insert_eq, delete_singleton_ne by done.
    rewrite (bind_param_body_dict _ _ _ d2 Hb) by apply lookup_singleton_eq.
    cbn [mbind Result_bind kwargs uri params data default].
    rewrite delete_singleton_eq. unfold id.
    by rewrite (right_id_L ∅ (∪)). }
  split; [done|]. split.
  { intros Hw Hne'. unfold Operation_call. rewrite Hbind. cbn [mbind Result_bind].
    rewrite synthesize_fetch by done. cbn [uri params data data_truth].
    apply dict_truth_true in Hne'. rewrite Hne'. by rewrite urlencode_empty. }
  split; [intros k v Hk; by apply lookup_union_Some_l|].
  split; [intros k Hk; by apply lookup_union_r|].
  split.
  { apply map_eq. intros k. rewrite lookup_union, lookup_insert.
    rewrite !lookup_singleton. repeat case_decide; simplify_eq; done. }
  intros op kw pre p post v Hdo Hpre Hp Hk Hn Hdict.
  assert (Hreach : forall l,
            foldM (bind_param (nickname (op_json op))) pre (locals0 op kw) = Ok l ->
            Operation_call op kw
            = match join_list v with
              | Ok _ => Raise (TypeError body_type_msg)
              | Raise e => Raise e
              end).
  { intros l Hl. unfold Operation_call. rewrite (bind_split _ _ _ _ _ Hdo), Hl.
    cbn [mbind Result_bind].
    rewrite (bind_param_body_mismatch _ _ _ v); try done.
    - by destruct (join_list v).
    - by rewrite (foldM_keeps_other _ _ _ _ _ Hl). }
  split; [|done].
  destruct (foldM (bind_param (nickname (op_json op))) pre (locals0 op kw))
    as [l|e] eqn:Hl.
  - rewrite (Hreach l eq_refl). by destruct (join_list v).
  - unfold Operation_call. by rewrite (bind_split _ _ _ _ _ Hdo), Hl.
Qed.

Lemma C4_body_parameters_witness :
  declared putThing = [param "a" "body" false; param "b" "body" false] /\
  param_name (param "a" "body" false) ≠ param_name (param "b" "body" false) /\
  bind putThing {[ "a" := VDict {[ "a" := VInt 1 ]};
                   "b" := VDict {[ "b" := VInt 2 ]} ]}
  = Ok {| uri := "http://x/api/things"; params := ∅;
          data := Some {[ "a" := VInt 1; "b" := VInt 2 ]}; kwargs := ∅ |}.
Proof.
  assert (H1 : declared putThing = [param "a" "body" false; param "b" "body" false])
    by reflexivity.
  assert (H2 : param_name (param "a" "body" false) ≠ param_name (param "b" "body" false))
    by discriminate.
  split; [exact H1|]. split; [exact H2|].
  exact (proj1 (C4_body_parameters putThing _ _ {[ "a" := VInt 1 ]} {[ "b" := VInt 2 ]}
                  H1 eq_refl eq_refl H2)).
Defined.

Lemma C4_counterexample :
  Operation_call tagThing {[ "trace" := VStr "t1"; "tags" := VInt 5 ]}
  = Raise (AssertionError (unsupported_msg "header")) /\
  Operation_call putThing {[ "a" := VNone; "b" := VDict {[ "b" := VInt 2 ]} ]}
  = Raise (TypeError (unexpected_msg "putThing" ["a"])) /\
  unexpected_msg "putThing" ["a"] <> body_type_msg.
Proof. repeat split; vm_compute; congruence. Qed.

(** ** Websocket operations *)



(** A websocket operation that binds without a body yields a connect
    request; its URL is the one computed from the bound [uri] before
    [re.sub] ran, so it keeps the scheme of [self.uri]. *)
Lemma websocket_connect_url (self : Operation) (kw : gmap string value)
    (l : Locals) :
  is_websocket (op_json self) = true ->
  bind self kw = Ok l -> kwargs l = ∅ -> data_truth (data l) = false ->
  Operation_call self kw
  = Ok (websocket_connect
          {| req_url := uri l +:+ "?" +:+ urlencode (params l);
             req_kwargs := defaults (op_http_client self) |}).
Proof.
  intros Hw Hb Hk Hd. unfold Operation_call. rewrite Hb.
  by apply synthesize_connect.
Qed.

(** C6 (the code at the failing input).  The websocket operation
    [eventWebsocket] of base URI [http://x/api/events], called with
    [app="demo"], yields a connect request, and the URL of that request
    still starts with [http]: the URI rewritten to [ws://x/api/events]
    is never used. *)
Theorem C6_websocket_url_keeps_http :
  Operation_call eventWebsocket {[ "app" := VStr "demo" ]}
  = Ok (websocket_connect
          {| req_url := "http://x/api/events?app=demo"; req_kwargs := ∅ |}) /\
  re_sub_http "ws" (op_uri eventWebsocket) = "ws://x/api/events".
Proof. split; reflexivity. Qed.

(** ** The request URL *)



(** ** Lookup by name and attribute access *)



(** ** Construction of the mappings *)

Lemma foldl_insert_notin {A V} (key : A -> string) (val : A -> V)
    (items : list A) (m : gmap string V) (k : string) :
  (forall y, y ∈ items -> key y ≠ k) ->
  foldl (fun m x => <[key x := val x]> m) m items !! k = m !! k.
Proof.
  revert m. induction items as [|x items IH]; intros m Hk; [done|].
  simpl. rewrite IH by (intros; apply Hk; by right).
  apply lookup_insert_ne, Hk. by left.
Qed.

(** In a dict comprehension the last item stored under a key is the
    one the dict holds. *)
Lemma dict_comprehension_last {A V} (key : A -> string) (val : A -> V) pre x post :
  (forall y, y ∈ post -> key y ≠ key x) ->
  dict_comprehension key val (pre ++ x :: post) !! key x = Some (val x).
Proof.
  intros Hpost. unfold dict_comprehension. rewrite foldl_app. simpl.
  rewrite foldl_insert_notin by done. apply lookup_insert_eq.
Qed.

Lemma filter_eq_NoDup (l : list string) k :
  NoDup l -> k ∈ l -> List.length (filter (fun k' => k' = k) l) = 1%nat.
Proof.
  induction 1 as [|x l Hx Hl IH]; [by intros ?%elem_of_nil|].
  intros Hk. destruct (decide (x = k)) as [->|Hne].
  - rewrite filter_cons_True by done. simpl. f_equal.
    clear IH Hk. induction l as [|y l IH]; [done|].
    apply not_elem_of_cons in Hx as [? ?].
    rewrite filter_cons_False by done. apply IH; [done|].
    by apply NoDup_cons in Hl as [? ?].
  - rewrite filter_cons_False by done. apply IH.
    apply elem_of_cons in Hk as [->|?]; done.
Qed.

Lemma count_key_present {A} (d : gmap string A) k :
  is_Some (d !! k) -> count_key k d = 1%nat.
Proof.
  intros Hk. unfold count_key. apply filter_eq_NoDup.
  - apply NoDup_fst_map_to_list.
  - by apply elem_of_dict_keys.
Qed.

(** C9.  [Resource.__init__] and [SwaggerClient.__init__] store the
    operations, and the resources, under their nickname, or name, in
    the order of the declaration, and return the object: whatever
    entries with the same key come before it, the last entry listed
    under a key is the one the mapping holds, and the mapping has one
    entry for that key. *)
Theorem C9_last_write_wins (resource : ResourceJson) (http_client : HttpClient)
    (pre : list (ApiJson * OperationJson)) (ao : ApiJson * OperationJson)
    (post : list (ApiJson * OperationJson))
    (api_docs : ApiDocs) (pre' : list ResourceJson) (r : ResourceJson)
    (post' : list ResourceJson) :
  decl_operations (api_declaration resource) = pre ++ ao :: post ->
  (forall x, x ∈ post -> nickname (snd x) ≠ nickname (snd ao)) ->
  docs_apis api_docs = pre' ++ r :: post' ->
  (forall x, x ∈ post' -> name x ≠ name r) ->
  get_operation (Resource_init resource http_client) (nickname (snd ao))
  = Some (build_operation http_client (api_declaration resource) (fst ao) (snd ao)) /\
  count_key (nickname (snd ao)) (res_operations (Resource_init resource http_client))
  = 1%nat /\
  get_resource (SwaggerClient_init api_docs http_client) (name r)
  = Ok (Some (Resource_init r http_client)) /\
  (forall m, _resources (SwaggerClient_init api_docs http_client) = Some m ->
             count_key (name r) m = 1%nat).
Proof.
  intros Hd Hpost Hd' Hpost'.
  assert (H1 : get_operation (Resource_init resource http_client) (nickname (snd ao))
    = Some (build_operation http_client (api_declaration resource) (fst ao) (snd ao))).
  { unfold get_operation, Resource_init. cbn [res_operations]. rewrite Hd.
    by apply (dict_comprehension_last
                (fun ao => nickname (snd ao))
                (fun ao => build_operation http_client (api_declaration resource)
                                           (fst ao) (snd ao))
                pre ao post). }
  assert (H2 : dict_comprehension name
                 (fun resource => Resource_init resource http_client)
                 (docs_apis api_docs) !! name r
               = Some (Resource_init r http_client)).
  { rewrite Hd'.
    by apply (dict_comprehension_last
                name (fun resource => Resource_init resource http_client)
                pre' r post'). }
  split; [done|]. split; [apply count_key_present; eexists; exact H1|].
  split; [unfold get_resource; simpl; by rewrite H2|].
  intros m [= <-]. apply count_key_present. eexists; exact H2.
Qed.

Lemma C9_last_write_wins_witness :
  decl_operations (api_declaration twice_resource)
  = [(twice_api, getThing_json)] ++ (twice_api, getThing_again_json) :: [] /\
  docs_apis twice_docs = [things_resource] ++ twice_resource :: [] /\
  get_operation (Resource_init twice_resource sample_client) "getThing"
  = Some (build_operation sample_client twice_decl twice_api getThing_again_json) /\
  get_resource (SwaggerClient_init twice_docs sample_client) "things"
  = Ok (Some (Resource_init twice_resource sample_client)).
Proof.
  assert (H1 : decl_operations (api_declaration twice_resource)
               = [(twice_api, getThing_json)] ++ (twice_api, getThing_again_json) :: [])
    by reflexivity.
  assert (H2 : forall x : ApiJson * OperationJson,
             x ∈ [] -> nickname (snd x) ≠ nickname getThing_again_json)
    by (intros x Hx; by apply elem_of_nil in Hx).
  assert (H3 : docs_apis twice_docs = [things_resource] ++ twice_resource :: [])
    by reflexivity.
  assert (H4 : forall x : ResourceJson, x ∈ [] -> name x ≠ name twice_resource)
    by (intros x Hx; by apply elem_of_nil in Hx).
  pose proof (C9_last_write_wins twice_resource sample_client _ _ _ twice_docs _ _ _
                H1 H2 H3 H4) as (Ha & _ & Hb & _).
  split; [exact H1|]. split; [exact H3|]. split; [exact Ha | exact Hb].
Defined.

(** ** Arguments bound to [None] *)

Lemma place_with_None p v l k :
  place p v (with_None k l) = with_None k <$> place p v l.
Proof.
  unfold place. repeat case_decide; try done. by destruct v.
Qed.

(** An iteration does on [kwargs] with [k=None] added what it does
    without, and leaves [k=None] in place. *)
Lemma bind_param_with_None nick p l k :
  kwargs l !! k = None ->
  bind_param nick p (with_None k l) = with_None k <$> bind_param nick p l.
Proof.
  intros Hk. unfold bind_param. cbv zeta.
  assert (Hget : dict_get (kwargs (with_None k l)) (param_name p)
                 = dict_get (kwargs l) (param_name p)).
  { unfold dict_get. cbn [with_None kwargs].
    destruct (decide (k = param_name p)) as [<-|Hne].
    - by rewrite lookup_insert_eq, Hk.
    - by rewrite lookup_insert_ne. }
  rewrite Hget. destruct (join_list (dict_get (kwargs l) (param_name p)))
    as [v|e] eqn:Hj; [|done].
  cbn [mbind Result_bind].
  assert (Hv : is_None v = false -> param_name p ≠ k).
  { intros Hv Heq. rewrite (join_list_is_None _ _ Hj) in Hv.
    unfold dict_get in Hv. by rewrite Heq, Hk in Hv. }
  destruct v; try (by destruct (required p));
    rewrite place_with_None;
    (destruct (place p _ l) as [l'|e]; [|done]);
    cbn [mbind Result_bind fmap Result_fmap];
    unfold del_kwarg, with_None; cbn [uri params data kwargs];
    by rewrite delete_insert_ne by (by apply Hv).
Qed.

Lemma foldM_with_None nick ps l k :
  kwargs l !! k = None ->
  foldM (bind_param nick) ps (with_None k l)
  = with_None k <$> foldM (bind_param nick) ps l.
Proof.
  revert l. induction ps as [|p ps IH]; intros l Hk; [done|].
  cbn [foldM]. rewrite bind_param_with_None by done.
  destruct (bind_param nick p l) as [l'|e] eqn:Hp; [|done].
  cbn [mbind Result_bind fmap Result_fmap]. apply IH.
  apply bind_param_kwargs_subseteq in Hp.
  by apply (lookup_weaken_None _ _ _ Hk).
Qed.

(** C10 (amended).  An argument passed as [None] is looked up as an
    absent one and is never removed from [kwargs]: the loop over the
    declared parameters ends as it does without the argument, with the
    name still in [kwargs].  The invocation therefore always fails
    before any transport call, so that [None] is never sent: when the
    loop completes, with the unexpected-parameter error, whose message
    lists the name; when a required parameter of that name is reached,
    with the missing-parameter error for it. *)
Theorem C10_None_argument (self : Operation) (kw : gmap string value)
    (k : string) :
  kw !! k = Some VNone ->
  bind self kw = with_None k <$> bind self (delete k kw) /\
  (exists e, Operation_call self kw = Raise e) /\
  transport_calls (Operation_call self kw) = [] /\
  (forall l, bind self kw = Ok l ->
     kwargs l !! k = Some VNone /\
     Operation_call self kw
     = Raise (TypeError (unexpected_msg (nickname (op_json self))
                                        (dict_keys (kwargs l)))) /\
     names (unexpected_msg (nickname (op_json self)) (dict_keys (kwargs l)))
           (repr_str k)) /\
  (forall pre p post l,
     declared self = pre ++ p :: post ->
     param_name p = k -> required p = true ->
     foldM (bind_param (nickname (op_json self))) pre (locals0 self kw) = Ok l ->
     Operation_call self kw
     = Raise (TypeError (missing_msg k (nickname (op_json self))))).
Proof.
  intros Hk.
  assert (Hleft : forall l, bind self kw = Ok l ->
     kwargs l !! k = Some VNone /\
     Operation_call self kw
     = Raise (TypeError (unexpected_msg (nickname (op_json self))
                                        (dict_keys (kwargs l)))) /\
     names (unexpected_msg (nickname (op_json self)) (dict_keys (kwargs l)))
           (repr_str k)).
  { intros l Hb.
    assert (Hl : kwargs l !! k = Some VNone)
      by apply (foldM_keeps_explicit_None _ _ _ _ _ Hb Hk).
    split; [done|]. split.
    - unfold Operation_call. rewrite Hb. apply synthesize_leftover.
      intros He. by rewrite He in Hl.
    - apply unexpected_msg_names, elem_of_dict_keys. eauto. }
  split.
  { unfold bind.
    replace (locals0 self kw) with (with_None k (locals0 self (delete k kw))).
    - apply foldM_with_None. apply lookup_delete_eq.
    - unfold with_None, locals0. cbn [uri params data kwargs].
      by rewrite insert_delete_id. }
  assert (Hfail : exists e, Operation_call self kw = Raise e).
  { destruct (bind self kw) as [l|e] eqn:Hb.
    - destruct (Hleft l eq_refl) as (_ & -> & _). eauto.
    - exists e. by apply Operation_call_bind_Raise. }
  split; [done|]. split; [by destruct Hfail as [e ->]|]. split; [done|].
  intros pre p post l Hd Hp Hr Hl. apply Operation_call_bind_Raise.
  rewrite (bind_split _ _ _ _ _ Hd), Hl. cbn [mbind Result_bind].
  rewrite bind_param_missing, Hp; [done | done |].
  apply (foldM_keeps_None _ _ _ _ _ Hl). unfold dict_get. cbn [locals0 kwargs].
  by rewrite Hp, Hk.
Qed.

Lemma C10_None_argument_witness :
  ({[ "id" := VInt 42; "colour" := VNone ]} : gmap string value) !! "colour"
  = Some VNone /\
  Operation_call getThing {[ "id" := VInt 42; "colour" := VNone ]}
  = Raise (TypeError (unexpected_msg "getThing" ["colour"])).
Proof.
  assert (H1 : ({[ "id" := VInt 42; "colour" := VNone ]} : gmap string value)
               !! "colour" = Some VNone) by reflexivity.
  split; [exact H1|].
  pose proof (C10_None_argument getThing _ "colour" H1) as (_ & _ & _ & H & _).
  exact (proj1 (proj2 (H {| uri := "http://x/api/things/42"; params := ∅;
                            data := None; kwargs := {[ "colour" := VNone ]} |}
                         eq_refl))).
Defined.

Lemma C10_counterexample :
  ({[ "tag" := VNone ]} : gmap string value) !! "tag" = Some VNone /\
  param "tag" "query" false ∈ declared searchThings /\
  Operation_call searchThings {[ "tag" := VNone ]}
  = Raise (TypeError (missing_msg "limit" "searchThings")) /\
  missing_msg "limit" "searchThings" <> unexpected_msg "searchThings" ["tag"] /\
  ~ names (missing_msg "limit" "searchThings") "tag" /\
  param "limit" "query" true ∈ declared listThings /\
  Operation_call listThings {[ "filter" := VInt 5; "limit" := VNone ]}
  = Raise (TypeError body_type_msg) /\
  body_type_msg <> missing_msg "limit" "listThings".
Proof.
  split; [reflexivity|]. split; [left|]. split; [reflexivity|].
  split; [vm_compute; congruence|]. split; [vm_compute; congruence|].
  split; [right; left|]. split; [reflexivity|]. vm_compute; congruence.
Qed.

(** * Further properties of the dispatcher *)

(** ** Invariants of the loop over the declared parameters *)

Lemma Operation_call_Ok_inv self kw c :
  Operation_call self kw = Ok c ->
  exists l, bind self kw = Ok l /\ kwargs l = ∅ /\ synthesize self l = Ok c.
Proof.
  unfold Operation_call. intros (l & Hb & Hs)%bind_Ok. exists l.
  split; [done|]. split; [|done].
  apply dict_truth_false. unfold synthesize in Hs.
  by destruct (dict_truth (kwargs l)).
Qed.

Lemma place_Ok_inv p v l l1 :
  place p v l = Ok l1 ->
  (paramType p = "path" /\
   l1 = {| uri := str_replace (uri l) ("{" +:+ param_name p +:+ "}")
                              (quote_plus (py_str v));
           params := params l; data := data l; kwargs := kwargs l |}) \/
  (paramType p = "query" /\
   l1 = {| uri := uri l; params := <[param_name p := v]> (params l);
           data := data l; kwargs := kwargs l |}) \/
  (paramType p = "body" /\ exists d, v = VDict d /\
   l1 = {| uri := uri l; params := params l;
           data := Some (d ∪ default ∅ (data l)); kwargs := kwargs l |}).
Proof.
  intros H. destruct (decide (paramType p = "body")) as [Hb|Hb].
  - right; right. split; [done|]. destruct v;
      try (rewrite place_body_mismatch in H by done; discriminate).
    rewrite place_body_dict in H by done. exists d. split; congruence.
  - unfold place in H. repeat case_decide; simplify_eq; eauto.
Qed.

Lemma bind_param_Ok_inv nick p l l' :
  bind_param nick p l = Ok l' ->
  (l' = l /\ is_None (dict_get (kwargs l) (param_name p)) = true) \/
  (exists v l1, join_list (dict_get (kwargs l) (param_name p)) = Ok v /\
                is_None v = false /\ place p v l = Ok l1 /\
                l' = del_kwarg (param_name p) l1).
Proof.
  unfold bind_param. cbv zeta. intros (v & Hj & H)%bind_Ok.
  destruct (is_None v) eqn:Hv.
  - left. destruct v; try discriminate. rewrite <- (join_list_is_None _ _ Hj).
    destruct (required p); by simplify_eq.
  - right. exists v.
    assert (H' : place p v l ≫= (fun l1 => Ok (del_kwarg (param_name p) l1)) = Ok l')
      by (by destruct v).
    apply bind_Ok in H' as (l1 & Hp & [= <-]). eauto.
Qed.

(** A property that every iteration keeps holds when the loop ends. *)
Lemma foldM_preserves (I : Locals -> Prop) nick ps l l' :
  (forall p l1 l2, p ∈ ps -> I l1 -> bind_param nick p l1 = Ok l2 -> I l2) ->
  I l -> foldM (bind_param nick) ps l = Ok l' -> I l'.
Proof.
  revert l. induction ps as [|p ps IH]; intros l Hstep Hl; simpl.
  - by intros [= <-].
  - intros (l1 & H1 & H2)%bind_Ok. apply (IH l1); [|by eapply Hstep; [left|..]|done].
    intros q l2 l3 Hq. apply Hstep. by right.
Qed.

(** After its iteration, the name of a parameter looks up as [None]. *)
Lemma bind_param_consumes nick p l l' :
  bind_param nick p l = Ok l' ->
  is_None (dict_get (kwargs l') (param_name p)) = true.
Proof.
  intros H. rewrite (bind_param_kwargs _ _ _ _ H).
  destruct (is_None (dict_get (kwargs l) (param_name p))) eqn:E; [done|].
  unfold dict_get. by rewrite lookup_delete_eq.
Qed.

Lemma foldM_consumes nick ps l l' p :
  foldM (bind_param nick) ps l = Ok l' -> p ∈ ps ->
  is_None (dict_get (kwargs l') (param_name p)) = true.
Proof.
  revert l. induction ps as [|q ps IH]; intros l; simpl; [by intros _ ?%elem_of_nil|].
  intros (l1 & H1 & H2)%bind_Ok [->|Hp]%elem_of_cons; [|by eapply IH].
  eapply foldM_keeps_None; [done|]. by eapply bind_param_consumes.
Qed.

(** X1.  When the loop completes, every declared name looks up as
    [None] in what is left of [kwargs]: each argument is used by one
    parameter at most, and the arguments left are those bound to [None]
    and those no parameter declares, with the value the caller gave. *)
Theorem X1_declared_arguments_consumed (self : Operation)
    (kw : gmap string value) (l : Locals) :
  bind self kw = Ok l ->
  (forall p, p ∈ declared self ->
     is_None (dict_get (kwargs l) (param_name p)) = true) /\
  (forall k v, kwargs l !! k = Some v ->
     kw !! k = Some v /\
     (is_None v = true \/ forall p, p ∈ declared self -> param_name p ≠ k)).
Proof.
  intros Hb.
  assert (H1 : forall p, p ∈ declared self ->
            is_None (dict_get (kwargs l) (param_name p)) = true)
    by (intros p Hp; by eapply foldM_consumes).
  split; [done|]. intros k v Hk. split.
  - by apply (lookup_weaken _ _ _ _ Hk), (foldM_kwargs_subseteq _ _ _ _ Hb).
  - destruct (is_None v) eqn:Hv; [by left|]. right. intros p Hp Hn.
    specialize (H1 p Hp). unfold dict_get in H1. rewrite Hn, Hk in H1.
    simpl in H1. congruence.
Qed.

Lemma X1_declared_arguments_consumed_witness :
  bind getThing {[ "id" := VInt 42; "colour" := VStr "red" ]}
  = Ok {| uri := "http://x/api/things/42"; params := ∅; data := None;
          kwargs := {[ "colour" := VStr "red" ]} |} /\
  forall p, p ∈ declared getThing ->
    is_None (dict_get ({[ "colour" := VStr "red" ]}) (param_name p)) = true.
Proof.
  assert (H1 : bind getThing {[ "id" := VInt 42; "colour" := VStr "red" ]}
               = Ok {| uri := "http://x/api/things/42"; params := ∅; data := None;
                       kwargs := {[ "colour" := VStr "red" ]} |}) by reflexivity.
  split; [exact H1|].
  exact (proj1 (X1_declared_arguments_consumed getThing _ _ H1)).
Defined.

(** X2.  A transport call is only reached when every argument of the
    caller is declared by the operation and is not [None]. *)
Theorem X2_request_only_for_declared_arguments (self : Operation)
    (kw : gmap string value) (c : TransportCall) :
  Operation_call self kw = Ok c ->
  forall k v, kw !! k = Some v ->
    is_None v = false /\ exists p, p ∈ declared self /\ param_name p = k.
Proof.
  intros (l & Hb & Hk & _)%Operation_call_Ok_inv k v Hv.
  destruct (is_None v) eqn:Hn.
  { destruct v; try discriminate.
    pose proof (foldM_keeps_explicit_None _ _ _ _ _ Hb Hv) as H.
    by rewrite Hk in H. }
  split; [done|].
  destruct (decide (Exists (fun p => param_name p = k) (declared self))) as [He|He].
  - apply Exists_exists in He as (p & Hp & Hpk). eauto.
  - exfalso. rewrite <- Forall_Exists_neg, Forall_forall in He.
    pose proof (foldM_keeps_other _ _ _ _ k Hb He) as H.
    cbn [locals0 kwargs] in H. by rewrite Hk, Hv in H.
Qed.

Lemma X2_request_only_for_declared_arguments_witness :
  Operation_call getThing {[ "id" := VInt 42 ]}
  = Ok (fetch "http://x/api/things/42?" "GET" None None) /\
  forall k v, ({[ "id" := VInt 42 ]} : gmap string value) !! k = Some v ->
    is_None v = false /\ exists p, p ∈ declared getThing /\ param_name p = k.
Proof.
  assert (H1 : Operation_call getThing {[ "id" := VInt 42 ]}
               = Ok (fetch "http://x/api/things/42?" "GET" None None)) by reflexivity.
  split; [exact H1|].
  exact (X2_request_only_for_declared_arguments getThing _ _ H1).
Defined.

Lemma bind_param_locals nick p l l' :
  bind_param nick p l = Ok l' ->
  (paramType p ≠ "path" -> uri l' = uri l) /\
  (paramType p ≠ "query" -> params l' = params l) /\
  (paramType p ≠ "body" -> data l' = data l).
Proof.
  intros [[-> _]|(v & l1 & _ & _ & Hp & ->)]%bind_param_Ok_inv; [done|].
  apply place_Ok_inv in Hp as [[Ht ->]|[[Ht ->]|(Ht & d & _ & ->)]];
    cbn [del_kwarg uri params data]; repeat split; congruence.
Qed.

(** X3.  Only a parameter of the matching location touches a part of
    the request: without a declared [path] parameter the URI is
    [self.uri], without a [query] one the query mapping is empty,
    without a [body] one there is no body. *)
Theorem X3_locations_are_kept_apart (self : Operation)
    (kw : gmap string value) (l : Locals) :
  bind self kw = Ok l ->
  ((forall p, p ∈ declared self -> paramType p ≠ "path") -> uri l = op_uri self) /\
  ((forall p, p ∈ declared self -> paramType p ≠ "query") -> params l = ∅) /\
  ((forall p, p ∈ declared self -> paramType p ≠ "body") -> data l = None).
Proof.
  intros Hb. repeat split; intros Hloc.
  - apply (foldM_preserves (fun l => uri l = op_uri self) _ _ _ _) in Hb; [done| |done].
    intros p l1 l2 Hp <- H. by apply (bind_param_locals _ _ _ _ H), Hloc.
  - apply (foldM_preserves (fun l => params l = ∅) _ _ _ _) in Hb; [done| |done].
    intros p l1 l2 Hp <- H. by apply (bind_param_locals _ _ _ _ H), Hloc.
  - apply (foldM_preserves (fun l => data l = None) _ _ _ _) in Hb; [done| |done].
    intros p l1 l2 Hp <- H. by apply (bind_param_locals _ _ _ _ H), Hloc.
Qed.

Lemma X3_locations_are_kept_apart_witness :
  bind getThing {[ "id" := VInt 42 ]}
  = Ok {| uri := "http://x/api/things/42"; params := ∅; data := None; kwargs := ∅ |} /\
  ((forall p, p ∈ declared getThing -> paramType p ≠ "query") ->
   params {| uri := "http://x/api/things/42"; params := ∅; data := None;
             kwargs := ∅ |} = ∅).
Proof.
  assert (H1 : bind getThing {[ "id" := VInt 42 ]}
               = Ok {| uri := "http://x/api/things/42"; params := ∅; data := None;
                       kwargs := ∅ |}) by reflexivity.
  split; [exact H1|].
  exact (proj1 (proj2 (X3_locations_are_kept_apart getThing _ _ H1))).
Defined.

Lemma join_list_is_list v v' : join_list v = Ok v' -> is_list v' = false.
Proof.
  destruct v; simpl; try (intros; simplify_eq; done).
  unfold str_join. destruct (join_items 0 l); simpl; intros; simplify_eq; done.
Qed.

(** X4.  When the loop completes, each entry of the query mapping is
    stored under the name of a declared [query] parameter and holds the
    value the caller passed under that name, a list replaced by its
    comma-joined string: never [None], never a list. *)
Theorem X4_query_mapping_entries (self : Operation) (kw : gmap string value)
    (l : Locals) (k : string) (v : value) :
  bind self kw = Ok l ->
  params l !! k = Some v ->
  is_None v = false /\ is_list v = false /\
  (exists p, p ∈ declared self /\ param_name p = k /\ paramType p = "query") /\
  (exists v0, kw !! k = Some v0 /\ join_list v0 = Ok v).
Proof.
  intros Hb Hk.
  pose (Q := fun (k : string) (v : value) =>
    is_None v = false /\ is_list v = false /\
    (exists p, p ∈ declared self /\ param_name p = k /\ paramType p = "query") /\
    (exists v0, kw !! k = Some v0 /\ join_list v0 = Ok v)).
  apply (foldM_preserves
           (fun l => kwargs l ⊆ kw /\ forall k v, params l !! k = Some v -> Q k v)
           _ _ _ _) in Hb.
  - by apply Hb.
  - intros p l1 l2 Hp [Hsub Hq] H. split.
    { etrans; [by eapply bind_param_kwargs_subseteq | done]. }
    apply bind_param_Ok_inv in H as [[-> _]|(w & l1' & Hj & Hn & Hpl & ->)]; [done|].
    apply place_Ok_inv in Hpl as [[Ht ->]|[[Ht ->]|(Ht & d & _ & ->)]];
      cbn [del_kwarg params]; try done.
    intros k' v' [[<- <-]|[Hne Hk']]%lookup_insert_Some; [|by apply Hq].
    split; [done|]. split; [by eapply join_list_is_list|]. split; [eauto|].
    unfold dict_get in Hj. destruct (kwargs l1 !! param_name p) as [v0|] eqn:E.
    + exists v0. split; [|exact Hj]. exact (lookup_weaken _ _ _ _ E Hsub).
    + simpl in Hj. by simplify_eq.
  - split; [done|]. intros k' v'. cbn [locals0 params]. by rewrite lookup_empty.
Qed.

Lemma X4_query_mapping_entries_witness :
  bind eventWebsocket {[ "app" := VList [VStr "a"; VStr "b"] ]}
  = Ok {| uri := "http://x/api/events"; params := {[ "app" := VStr "a,b" ]};
          data := None; kwargs := ∅ |} /\
  is_None (VStr "a,b") = false /\ is_list (VStr "a,b") = false.
Proof.
  assert (H1 : bind eventWebsocket {[ "app" := VList [VStr "a"; VStr "b"] ]}
               = Ok {| uri := "http://x/api/events";
                       params := {[ "app" := VStr "a,b" ]};
                       data := None; kwargs := ∅ |}) by reflexivity.
  split; [exact H1|].
  pose proof (X4_query_mapping_entries eventWebsocket _ _ "app" (VStr "a,b") H1 eq_refl)
    as (Ha & Hb & _).
  split; [exact Ha | exact Hb].
Defined.

(** ** Errors raised by an iteration *)

(** When the parameter [p] raises [e] on the value the caller passed
    under its name, and no parameter declared before [p] has that name,
    the invocation makes no transport call, and raises [e] when the
    parameters before [p] bind. *)
Lemma raise_when_reached self kw pre p post v e :
  declared self = pre ++ p :: post ->
  (forall q, q ∈ pre -> param_name q ≠ param_name p) ->
  kw !! param_name p = Some v ->
  (forall l, kwargs l !! param_name p = Some v ->
     bind_param (nickname (op_json self)) p l = Raise e) ->
  transport_calls (Operation_call self kw) = [] /\
  (forall l, foldM (bind_param (nickname (op_json self))) pre (locals0 self kw) = Ok l ->
     Operation_call self kw = Raise e).
Proof.
  intros Hd Hpre Hk He.
  assert (Hreach : forall l,
            foldM (bind_param (nickname (op_json self))) pre (locals0 self kw) = Ok l ->
            Operation_call self kw = Raise e).
  { intros l Hl. apply Operation_call_bind_Raise.
    rewrite (bind_split _ _ _ _ _ Hd), Hl. cbn [mbind Result_bind].
    rewrite He; [done|]. by rewrite (foldM_keeps_other _ _ _ _ _ Hl). }
  split; [|done].
  destruct (foldM (bind_param (nickname (op_json self))) pre (locals0 self kw))
    as [l|e'] eqn:Hl.
  - by rewrite (Hreach l eq_refl).
  - unfold Operation_call. by rewrite (bind_split _ _ _ _ _ Hd), Hl.
Qed.

Lemma place_unsupported p v l :
  paramType p ≠ "path" -> paramType p ≠ "query" -> paramType p ≠ "body" ->
  place p v l = Raise (AssertionError (unsupported_msg (paramType p))).
Proof. intros. unfold place. by rewrite !decide_False. Qed.

Lemma bind_param_unsupported nick p l v :
  paramType p ≠ "path" -> paramType p ≠ "query" -> paramType p ≠ "body" ->
  kwargs l !! param_name p = Some v -> is_None v = false ->
  bind_param nick p l
  = Raise match join_list v with
          | Ok _ => AssertionError (unsupported_msg (paramType p))
          | Raise e => e
          end.
Proof.
  intros H1 H2 H3 Hk Hn. unfold bind_param, dict_get. rewrite Hk. simpl default.
  destruct (join_list v) as [v'|e] eqn:Hj; [|done]. cbn [mbind Result_bind].
  pose proof (join_list_is_None _ _ Hj) as Hn'. rewrite Hn in Hn'.
  destruct v'; try discriminate; by rewrite place_unsupported.
Qed.

(** X5.  A parameter whose [paramType] is not [path], [query] or
    [body] raises [AssertionError] naming that [paramType] once a value
    other than [None] is passed for it (a list is joined first, which
    can raise by itself): no transport call is made, and this is the
    error when the parameters declared before it bind. *)
Theorem X5_unsupported_paramType (self : Operation) (kw : gmap string value)
    (pre : list ParamJson) (p : ParamJson) (post : list ParamJson) (v : value) :
  declared self = pre ++ p :: post ->
  (forall q, q ∈ pre -> param_name q ≠ param_name p) ->
  paramType p ≠ "path" -> paramType p ≠ "query" -> paramType p ≠ "body" ->
  kw !! param_name p = Some v ->
  is_None v = false ->
  transport_calls (Operation_call self kw) = [] /\
  (forall l, foldM (bind_param (nickname (op_json self))) pre (locals0 self kw) = Ok l ->
     Operation_call self kw
     = Raise match join_list v with
             | Ok _ => AssertionError (unsupported_msg (paramType p))
             | Raise e => e
             end).
Proof.
  intros Hd Hpre H1 H2 H3 Hk Hn.
  apply (raise_when_reached self kw pre p post v); try done.
  intros l Hl. by apply bind_param_unsupported.
Qed.

Lemma X5_unsupported_paramType_witness :
  declared tagThing = [] ++ param "trace" "header" false :: [param "tags" "body" false] /\
  transport_calls (Operation_call tagThing {[ "trace" := VStr "t1" ]}) = [] /\
  Operation_call tagThing {[ "trace" := VStr "t1" ]}
  = Raise (AssertionError (unsupported_msg "header")).
Proof.
  assert (H1 : declared tagThing
               = [] ++ param "trace" "header" false :: [param "tags" "body" false])
    by reflexivity.
  assert (H2 : forall q : ParamJson,
             q ∈ [] -> param_name q ≠ param_name (param "trace" "header" false))
    by (intros q Hq; by apply elem_of_nil in Hq).
  pose proof (X5_unsupported_paramType tagThing {[ "trace" := VStr "t1" ]}
                [] (param "trace" "header" false) [param "tags" "body" false]
                (VStr "t1") H1 H2
                ltac:(discriminate) ltac:(discriminate) ltac:(discriminate)
                eq_refl eq_refl) as [Ha Hb].
  split; [exact H1|]. split; [exact Ha|]. exact (Hb _ eq_refl).
Defined.

Lemma join_items_not_str (i : nat) (strs : list string) v rest :
  is_str v = false ->
  join_items i ((VStr <$> strs) ++ v :: rest)
  = Raise (TypeError ("sequence item " +:+ pretty (i + List.length strs)%nat
                        +:+ ": expected string, " +:+ type_name v +:+ " found")).
Proof.
  intros Hv. revert i. induction strs as [|x strs IH]; intros i.
  - rewrite Nat.add_0_r. by destruct v.
  - cbn [fmap list_fmap app join_items]. fold (@fmap list _ _ _ VStr strs).
    rewrite IH. cbn [fmap Result_fmap List.length]. by rewrite Nat.add_succ_r.
Qed.

(** X6.  A list argument is joined before anything else is looked at:
    when the list holds an item that is not a string, the iteration
    raises the [TypeError] of [','.join] for the first such item,
    whatever the location of the parameter and whether it is required
    or not. *)
Theorem X6_list_with_a_non_string (nick : string) (p : ParamJson) (l : Locals)
    (strs : list string) (v : value) (rest : list value) :
  kwargs l !! param_name p = Some (VList ((VStr <$> strs) ++ v :: rest)) ->
  is_str v = false ->
  bind_param nick p l
  = Raise (TypeError ("sequence item " +:+ pretty (List.length strs)
                        +:+ ": expected string, " +:+ type_name v +:+ " found")).
Proof.
  intros Hk Hv. unfold bind_param, dict_get. rewrite Hk. simpl default.
  unfold join_list, str_join. by rewrite join_items_not_str.
Qed.

Lemma X6_list_with_a_non_string_witness :
  kwargs (locals0 getThing {[ "id" := VList [VStr "a"; VInt 7] ]}) !! "id"
  = Some (VList ((VStr <$> ["a"]) ++ VInt 7 :: [])) /\
  is_str (VInt 7) = false /\
  bind_param "getThing" (param "id" "path" true)
             (locals0 getThing {[ "id" := VList [VStr "a"; VInt 7] ]})
  = Raise (TypeError "sequence item 1: expected string, int found").
Proof.
  assert (H1 : kwargs (locals0 getThing {[ "id" := VList [VStr "a"; VInt 7] ]})
               !! param_name (param "id" "path" true)
               = Some (VList ((VStr <$> ["a"]) ++ VInt 7 :: []))) by reflexivity.
  assert (H2 : is_str (VInt 7) = false) by reflexivity.
  split; [exact H1|]. split; [exact H2|].
  exact (X6_list_with_a_non_string "getThing" _ _ ["a"] (VInt 7) [] H1 H2).
Defined.

(** ** Calls with no argument, or with one *)

Lemma foldM_no_arguments nick ps l :
  kwargs l = ∅ ->
  foldM (bind_param nick) ps l
  = match List.find required ps with
    | Some p => Raise (TypeError (missing_msg (param_name p) nick))
    | None => Ok l
    end.
Proof.
  intros Hk. induction ps as [|p ps IH]; [done|].
  cbn [foldM List.find]. unfold bind_param, dict_get. rewrite Hk, lookup_empty.
  simpl. destruct (required p); [done|]. apply IH.
Qed.

Lemma synthesize_locals0 self : synthesize self (locals0 self ∅) = Ok (plain_request self).
Proof.
  unfold plain_request. destruct (is_websocket (op_json self)) eqn:Hw.
  - rewrite synthesize_connect by done. cbn [locals0 uri params].
    by rewrite urlencode_empty.
  - rewrite synthesize_fetch by done. cbn [locals0 uri params data data_truth].
    by rewrite urlencode_empty.
Qed.

(** X7.  Called with no argument, an operation raises the
    missing-parameter error for the first parameter declared required,
    whatever the locations declared before it; when no parameter is
    required it yields the request for [self.uri] followed by [?], with
    no body and no headers. *)
Theorem X7_call_without_arguments (self : Operation) :
  Operation_call self ∅
  = match List.find required (declared self) with
    | Some p => Raise (TypeError (missing_msg (param_name p) (nickname (op_json self))))
    | None => Ok (plain_request self)
    end.
Proof.
  unfold Operation_call, bind. rewrite foldM_no_arguments by done.
  destruct (List.find required (declared self)); [done|].
  apply synthesize_locals0.
Qed.

Lemma bind_param_bound nick p l v v' :
  kwargs l !! param_name p = Some v -> is_None v = false -> join_list v = Ok v' ->
  bind_param nick p l = l' ← place p v' l; Ok (del_kwarg (param_name p) l').
Proof.
  intros Hk Hn Hj. unfold bind_param, dict_get. rewrite Hk. simpl default.
  rewrite Hj. cbn [mbind Result_bind].
  pose proof (join_list_is_None _ _ Hj) as Hn'. rewrite Hn in Hn'.
  by destruct v'.
Qed.

(** X8.  For an operation that declares one [query] parameter, the URL
    of the request is [self.uri], [?], and the percent-encoded name and
    value of the argument joined by [=]; a list argument is sent as its
    comma-joined string. *)
Theorem X8_query_parameter_url (self : Operation) (p : ParamJson) (v v' : value) :
  declared self = [p] ->
  paramType p = "query" ->
  is_None v = false ->
  join_list v = Ok v' ->
  call_url <$> Operation_call self {[ param_name p := v ]}
  = Ok (op_uri self +:+ "?" +:+ quote_plus (param_name p) +:+ "="
                    +:+ quote_plus (py_str v')).
Proof.
  intros Hd Hp Hn Hj. unfold Operation_call, bind. rewrite Hd. cbn [foldM].
  rewrite (bind_param_bound _ _ _ v v') by (done || apply lookup_singleton_eq).
  unfold place. rewrite decide_False by (rewrite Hp; discriminate).
  rewrite decide_True by done.
  cbn [mbind Result_bind]. unfold del_kwarg. cbn [locals0 kwargs uri params data].
  rewrite delete_singleton_eq, synthesize_no_body_url by done.
  cbn [uri params]. unfold urlencode.
  by rewrite insert_empty, map_to_list_singleton.
Qed.

Lemma X8_query_parameter_url_witness :
  declared eventWebsocket = [param "app" "query" true] /\
  join_list (VList [VStr "a"; VStr "b c"]) = Ok (VStr "a,b c") /\
  call_url <$> Operation_call eventWebsocket {[ "app" := VList [VStr "a"; VStr "b c"] ]}
  = Ok "http://x/api/events?app=a%2Cb+c".
Proof.
  assert (H1 : declared eventWebsocket = [param "app" "query" true]) by reflexivity.
  assert (H2 : join_list (VList [VStr "a"; VStr "b c"]) = Ok (VStr "a,b c"))
    by reflexivity.
  split; [exact H1|]. split; [exact H2|].
  exact (X8_query_parameter_url eventWebsocket (param "app" "query" true)
           (VList [VStr "a"; VStr "b c"]) (VStr "a,b c") H1 eq_refl eq_refl H2).
Defined.

Lemma replace_from_absent (old new s : string) :
  is_substring old s = false -> replace_from old new O s = s.
Proof.
  induction s as [|c s IH]; [done|].
  rewrite is_substring_cons. intros [Hp Hs]%orb_false_iff.
  cbn [replace_from]. rewrite Hp. by rewrite IH.
Qed.

(** X9.  A [path] argument whose [{name}] placeholder does not occur in
    [self.uri] is consumed without effect and without error: for an
    operation that declares just this parameter, the request is the one
    made for no argument at all. *)
Theorem X9_path_placeholder_absent (self : Operation) (p : ParamJson)
    (v v' : value) :
  declared self = [p] ->
  paramType p = "path" ->
  is_substring ("{" +:+ param_name p +:+ "}") (op_uri self) = false ->
  is_None v = false ->
  join_list v = Ok v' ->
  Operation_call self {[ param_name p := v ]} = Ok (plain_request self).
Proof.
  intros Hd Hp Habs Hn Hj. unfold Operation_call, bind. rewrite Hd. cbn [foldM].
  rewrite (bind_param_bound _ _ _ v v') by (done || apply lookup_singleton_eq).
  unfold place. rewrite decide_True by done.
  cbn [mbind Result_bind]. unfold del_kwarg. cbn [locals0 kwargs uri params data].
  unfold str_replace. rewrite replace_from_absent, delete_singleton_eq by done.
  apply synthesize_locals0.
Qed.

Lemma X9_path_placeholder_absent_witness :
  is_substring "{ident}" "http://x/api/things/{id}" = false /\
  Operation_call
    (operation "http://x/api/things/{id}" "getThing" [param "ident" "path" true] false)
    {[ "ident" := VInt 42 ]}
  = Ok (fetch "http://x/api/things/{id}?" "GET" None None).
Proof.
  assert (H1 : is_substring "{ident}" "http://x/api/things/{id}" = false)
    by reflexivity.
  split; [exact H1|].
  exact (X9_path_placeholder_absent
           (operation "http://x/api/things/{id}" "getThing"
                      [param "ident" "path" true] false)
           (param "ident" "path" true) (VInt 42) (VInt 42)
           eq_refl eq_refl H1 eq_refl eq_refl).
Defined.

(** ** The request that is sent *)

(** X10.  For a plain operation that declares one [body] parameter: a
    non-empty mapping is sent serialized with the two JSON headers; an
    empty mapping is false for [if data:], so it is handed to [fetch]
    as it is, not serialized and without headers. *)
Theorem X10_body_of_one_parameter (self : Operation) (p : ParamJson)
    (d : gmap string value) :
  declared self = [p] ->
  paramType p = "body" ->
  is_websocket (op_json self) = false ->
  (d ≠ ∅ ->
   Operation_call self {[ param_name p := VDict d ]}
   = Ok (fetch (op_uri self +:+ "?") (httpMethod (op_json self))
               (Some (json_dumps d)) (Some json_headers))) /\
  (d = ∅ ->
   Operation_call self {[ param_name p := VDict d ]}
   = Ok (fetch (op_uri self +:+ "?") (httpMethod (op_json self))
               (Some (raw_dict ∅)) None)).
Proof.
  intros Hd Hp Hw.
  assert (Hc : Operation_call self {[ param_name p := VDict d ]}
    = Ok (fetch (op_uri self +:+ "?") (httpMethod (op_json self))
                (if dict_truth d then Some (json_dumps d) else Some (raw_dict d))
                (if dict_truth d then Some json_headers else None))).
  { unfold Operation_call, bind. rewrite Hd. cbn [foldM].
    rewrite (bind_param_body_dict _ _ _ d Hp) by apply lookup_singleton_eq.
    cbn [mbind Result_bind locals0 kwargs uri params data default from_option].
    unfold id. rewrite delete_singleton_eq, (right_id_L ∅ (∪)).
    rewrite synthesize_fetch by done. cbn [uri params data data_truth].
    rewrite urlencode_empty. by destruct (dict_truth d). }
  split.
  - intros Hne%dict_truth_true. by rewrite Hc, Hne.
  - intros ->. rewrite Hc. by replace (dict_truth (∅ : gmap string value)) with false.
Qed.

Lemma X10_body_of_one_parameter_witness :
  declared sendEvent = [param "event" "body" false] /\
  Operation_call (operation "http://x/api/events" "sendEvent"
                            [param "event" "body" false] false)
                 {[ "event" := VDict ∅ ]}
  = Ok (fetch "http://x/api/events?" "GET" (Some (raw_dict ∅)) None).
Proof.
  assert (H1 : declared sendEvent = [param "event" "body" false]) by reflexivity.
  split; [exact H1|].
  exact (proj2 (X10_body_of_one_parameter
                  (operation "http://x/api/events" "sendEvent"
                             [param "event" "body" false] false)
                  (param "event" "body" false) ∅ eq_refl eq_refl eq_refl) eq_refl).
Defined.

(** X11.  Whatever request an invocation yields: a websocket operation
    yields a connect request built with the [defaults] of its client,
    and only when no body was bound; any other operation yields a
    [fetch] with the declared [httpMethod], whose body is either a
    serialized non-empty mapping, with the JSON headers, or [None] or
    an empty mapping, without headers. *)
Theorem X11_shape_of_the_request (self : Operation) (kw : gmap string value)
    (c : TransportCall) :
  Operation_call self kw = Ok c ->
  match c with
  | websocket_connect request =>
      is_websocket (op_json self) = true /\
      req_kwargs request = defaults (op_http_client self) /\
      (forall l, bind self kw = Ok l -> data l = None \/ data l = Some ∅)
  | fetch url method body headers =>
      is_websocket (op_json self) = false /\
      method = httpMethod (op_json self) /\
      ((exists d, d ≠ ∅ /\ body = Some (json_dumps d) /\ headers = Some json_headers) \/
       (headers = None /\ (body = None \/ body = Some (raw_dict ∅))))
  end.
Proof.
  intros (l & Hb & Hk & Hs)%Operation_call_Ok_inv.
  assert (Hfalse : data_truth (data l) = false -> data l = None \/ data l = Some ∅).
  { destruct (data l) as [d|]; [|by left]. simpl.
    intros ->%dict_truth_false. by right. }
  destruct (is_websocket (op_json self)) eqn:Hw.
  - destruct (data_truth (data l)) eqn:Hd.
    + by rewrite synthesize_websocket_body in Hs.
    + rewrite synthesize_connect in Hs by done. simplify_eq. cbn [req_kwargs].
      split; [done|]. split; [done|]. intros l' Hl'. rewrite Hb in Hl'.
      simplify_eq. by apply Hfalse.
  - rewrite synthesize_fetch in Hs by done. simplify_eq.
    split; [done|]. split; [done|].
    destruct (data_truth (data l)) eqn:Hd.
    + left. destruct (data l) as [d|] eqn:E; [|done]. exists d.
      split; [by apply dict_truth_true|done].
    + right. split; [done|]. by destruct (Hfalse eq_refl) as [->| ->]; [left|right].
Qed.

Lemma X11_shape_of_the_request_witness :
  Operation_call eventWebsocket {[ "app" := VStr "demo" ]}
  = Ok (websocket_connect
          {| req_url := "http://x/api/events?app=demo"; req_kwargs := ∅ |}) /\
  is_websocket (op_json eventWebsocket) = true.
Proof.
  assert (H1 : Operation_call eventWebsocket {[ "app" := VStr "demo" ]}
               = Ok (websocket_connect
                       {| req_url := "http://x/api/events?app=demo";
                          req_kwargs := ∅ |})) by reflexivity.
  split; [exact H1|].
  exact (proj1 (X11_shape_of_the_request eventWebsocket _ _ H1)).
Defined.

Lemma bind_param_data_truth nick p l l' :
  bind_param nick p l = Ok l' ->
  data_truth (data l) = true -> data_truth (data l') = true.
Proof.
  intros [[-> _]|(v & l1 & _ & _ & Hp & ->)]%bind_param_Ok_inv Ht; [done|].
  apply place_Ok_inv in Hp as [[_ ->]|[[_ ->]|(_ & d & _ & ->)]];
    cbn [del_kwarg data]; try done.
  destruct (data l) as [old|]; [|done]. simpl in *.
  apply dict_truth_true in Ht. apply dict_truth_true.
  intros Hu. apply Ht. pose proof (map_positive_l _ _ Hu) as Hd.
  by rewrite Hd, (left_id_L ∅ (∪)) in Hu.
Qed.

(** X12.  A websocket operation called with a non-empty mapping for a
    [body] parameter, the first declared under its name, never reaches
    the transport; when the arguments bind with nothing left over the
    error is [NotImplementedError]. *)
Theorem X12_websocket_never_sends_a_body (self : Operation)
    (kw : gmap string value) (pre : list ParamJson) (p : ParamJson)
    (post : list ParamJson) (d : gmap string value) :
  is_websocket (op_json self) = true ->
  declared self = pre ++ p :: post ->
  (forall q, q ∈ pre -> param_name q ≠ param_name p) ->
  paramType p = "body" ->
  kw !! param_name p = Some (VDict d) ->
  d ≠ ∅ ->
  transport_calls (Operation_call self kw) = [] /\
  (forall l, bind self kw = Ok l -> kwargs l = ∅ ->
     Operation_call self kw = Raise (NotImplementedError websocket_body_msg)).
Proof.
  intros Hw Hd Hpre Hp Hk Hne.
  assert (Hdata : forall l, bind self kw = Ok l -> data_truth (data l) = true).
  { intros l. rewrite (bind_split _ _ _ _ _ Hd).
    intros (l1 & H1 & (l2 & H2 & H3)%bind_Ok)%bind_Ok.
    apply (foldM_preserves (fun l => data_truth (data l) = true) _ _ _ _) in H3;
      [done|intros ???? Ht Hstep; by eapply bind_param_data_truth|].
    rewrite (bind_param_body_dict _ _ _ d Hp) in H2
      by (by rewrite (foldM_keeps_other _ _ _ _ _ H1)).
    simplify_eq. cbn [data data_truth]. by apply dict_truth_true, map_positive_l_alt. }
  assert (Hni : forall l, bind self kw = Ok l -> kwargs l = ∅ ->
            Operation_call self kw = Raise (NotImplementedError websocket_body_msg)).
  { intros l Hb Hkw. unfold Operation_call. rewrite Hb. cbn [mbind Result_bind].
    apply synthesize_websocket_body; auto. }
  split; [|done]. destruct (bind self kw) as [l|e] eqn:Hb.
  - destruct (decide (kwargs l = ∅)) as [He|He].
    + by rewrite (Hni l eq_refl He).
    + unfold Operation_call. rewrite Hb. cbn [mbind Result_bind].
      by rewrite synthesize_leftover.
  - by rewrite (Operation_call_bind_Raise _ _ _ Hb).
Qed.

Lemma X12_websocket_never_sends_a_body_witness :
  declared sendEvent = [] ++ param "event" "body" false :: [] /\
  ({[ "kind" := VStr "ping" ]} : gmap string value) ≠ ∅ /\
  transport_calls
    (Operation_call sendEvent {[ "event" := VDict {[ "kind" := VStr "ping" ]};
                                 "colour" := VStr "red" ]}) = [].
Proof.
  assert (H1 : declared sendEvent = [] ++ param "event" "body" false :: [])
    by reflexivity.
  assert (H2 : forall q : ParamJson,
             q ∈ [] -> param_name q ≠ param_name (param "event" "body" false))
    by (intros q Hq; by apply elem_of_nil in Hq).
  assert (H3 : ({[ "kind" := VStr "ping" ]} : gmap string value) ≠ ∅)
    by (vm_compute; discriminate).
  split; [exact H1|]. split; [exact H3|].
  exact (proj1 (X12_websocket_never_sends_a_body sendEvent
                  {[ "event" := VDict {[ "kind" := VStr "ping" ]};
                     "colour" := VStr "red" ]}
                  [] (param "event" "body" false) [] {[ "kind" := VStr "ping" ]}
                  eq_refl H1 H2 eq_refl eq_refl H3)).
Defined.

(** * Further properties of Resource and SwaggerClient *)

Lemma foldl_insert_lookup_Some {A V} (key : A -> string) (val : A -> V)
    (items : list A) (m : gmap string V) (k : string) (v : V) :
  foldl (fun m x => <[key x := val x]> m) m items !! k = Some v ->
  m !! k = Some v \/ exists x, x ∈ items /\ key x = k /\ v = val x.
Proof.
  revert m. induction items as [|x items IH]; intros m; [by left|].
  simpl. intros [H|(y & Hy & Hk & Hv)]%IH.
  - apply lookup_insert_Some in H as [[<- <-]|[_ H]]; [|by left].
    right. exists x. split; [by left | done].
  - right. exists y. split; [by right | done].
Qed.


(** The entries of a dict comprehension come from its items, and every
    item has its key in the dict. *)
Lemma dict_comprehension_lookup_Some {A V} (key : A -> string) (val : A -> V)
    (items : list A) (k : string) (v : V) :
  dict_comprehension key val items !! k = Some v ->
  exists x, x ∈ items /\ key x = k /\ v = val x.
Proof.
  intros [H|H]%foldl_insert_lookup_Some; [|done]. by rewrite lookup_empty in H.
Qed.


Lemma elem_of_decl_operations decl api oper :
  (api, oper) ∈ decl_operations decl <-> api ∈ apis decl /\ oper ∈ operations api.
Proof.
  unfold decl_operations. rewrite list_elem_of_bind. split.
  - intros (api' & H & Hapi). apply list_elem_of_bind in H as (oper' & H & Hoper).
    apply list_elem_of_singleton in H. by simplify_eq.
  - intros [Hapi Hoper]. exists api. split; [|done].
    apply list_elem_of_bind. exists oper. split; [|done].
    by apply list_elem_of_singleton.
Qed.

Lemma Resource_init_lookup resource http_client k op :
  get_operation (Resource_init resource http_client) k = Some op ->
  exists api oper,
    api ∈ apis (api_declaration resource) /\ oper ∈ operations api /\
    nickname oper = k /\ op_json op = oper /\
    op_uri op = basePath (api_declaration resource) +:+ path api /\
    op_http_client op = http_client.
Proof.
  unfold get_operation, Resource_init. cbn [res_operations].
  intros ([api oper] & Hx & Hk & ->)%dict_comprehension_lookup_Some.
  apply elem_of_decl_operations in Hx as [Hapi Hoper].
  exists api, oper. by repeat split.
Qed.

(** X13.  Every entry of a Resource's mapping is the Operation built
    for an operation of the declaration: its key is the nickname of the
    operation, its URI the base path followed by the path of the API it
    is listed under, and it holds the client of the Resource. *)
Theorem X13_operations_come_from_the_declaration (resource : ResourceJson)
    (http_client : HttpClient) (k : string) (op : Operation) :
  get_operation (Resource_init resource http_client) k = Some op ->
  exists api oper,
    api ∈ apis (api_declaration resource) /\ oper ∈ operations api /\
    nickname oper = k /\ op_json op = oper /\
    op_uri op = basePath (api_declaration resource) +:+ path api /\
    op_http_client op = http_client.
Proof. apply Resource_init_lookup. Qed.

Lemma X13_operations_come_from_the_declaration_witness :
  get_operation (Resource_init twice_resource sample_client) "getThing"
  = Some (build_operation sample_client twice_decl twice_api getThing_again_json) /\
  exists api oper,
    api ∈ apis twice_decl /\ oper ∈ operations api /\
    nickname oper = "getThing" /\
    op_json (build_operation sample_client twice_decl twice_api getThing_again_json)
    = oper /\
    op_uri (build_operation sample_client twice_decl twice_api getThing_again_json)
    = basePath twice_decl +:+ path api /\
    op_http_client (build_operation sample_client twice_decl twice_api
                                    getThing_again_json) = sample_client.
Proof.
  assert (H1 : get_operation (Resource_init twice_resource sample_client) "getThing"
               = Some (build_operation sample_client twice_decl twice_api
                                       getThing_again_json)) by reflexivity.
  split; [exact H1|].
  exact (X13_operations_come_from_the_declaration twice_resource sample_client _ _ H1).
Defined.



(** X15.  Every entry of the client's mapping is the Resource built
    for an entry of the listing with that name; the Resource and all
    its Operations hold the client's own transport handle. *)
Theorem X15_resources_come_from_the_listing (api_docs : ApiDocs)
    (http_client : HttpClient) (k : string) (r : Resource) :
  get_resource (SwaggerClient_init api_docs http_client) k = Ok (Some r) ->
  (exists rj, rj ∈ docs_apis api_docs /\ name rj = k /\
              r = Resource_init rj http_client) /\
  get_name r = k /\
  res_http_client r = http_client /\
  (forall n op, get_operation r n = Some op -> op_http_client op = http_client).
Proof.
  unfold get_resource, resources, SwaggerClient_init. cbn [_resources mbind Result_bind].
  intros [= (rj & Hrj & Hk & ->)%dict_comprehension_lookup_Some].
  split; [eauto|]. split; [done|]. split; [done|].
  intros n op (api & oper & _ & _ & _ & _ & _ & H)%Resource_init_lookup.
  done.
Qed.

Lemma X15_resources_come_from_the_listing_witness :
  get_resource (SwaggerClient_init twice_docs sample_client) "things"
  = Ok (Some (Resource_init twice_resource sample_client)) /\
  get_name (Resource_init twice_resource sample_client) = "things" /\
  res_http_client (Resource_init twice_resource sample_client) = sample_client.
Proof.
  assert (H1 : get_resource (SwaggerClient_init twice_docs sample_client) "things"
               = Ok (Some (Resource_init twice_resource sample_client)))
    by reflexivity.
  pose proof (X15_resources_come_from_the_listing twice_docs sample_client _ _ H1)
    as (_ & Ha & Hb & _).
  split; [exact H1|]. split; [exact Ha | exact Hb].
Defined.





(** * Properties of ClientProcessor *)

Lemma rfind_from_absent c s i last :
  contains_char c s = false -> rfind_from c s i last = last.
Proof.
  revert i last. induction s as [|c' s IH]; intros i last; [done|].
  cbn [contains_char rfind_from]. intros [Hc Hs]%orb_false_iff.
  rewrite Ascii.eqb_sym, Hc. by apply IH.
Qed.

Lemma rfind_from_app c a b i last :
  rfind_from c (a +:+ b) i last
  = rfind_from c b (i + Z.of_nat (String.length a)) (rfind_from c a i last).
Proof.
  revert i last. induction a as [|c' a IH]; intros i last.
  - cbn. by rewrite Z.add_0_r.
  - rewrite app_cons. cbn [rfind_from String.length]. rewrite IH. f_equal. lia.
Qed.

Lemma rfind_from_spec c s i last :
  (contains_char c s = false /\ rfind_from c s i last = last) \/
  (exists a b, s = a +:+ String c b /\ contains_char c b = false /\
               rfind_from c s i last = i + Z.of_nat (String.length a)).
Proof.
  revert i last. induction s as [|c' s IH]; intros i last; [by left|].
  cbn [rfind_from contains_char].
  destruct (IH (i + 1) (if Ascii.eqb c' c then i else last))
    as [[Hs Hr]|(a & b & -> & Hb & Hr)].
  - rewrite Hr, Hs, Ascii.eqb_sym. destruct (Ascii.eqb c' c) eqn:Hc.
    + right. apply Ascii.eqb_eq in Hc as ->. exists EmptyString, s.
      split; [done|]. split; [done|]. cbn. lia.
    + by left.
  - right. exists (String c' a), b. split; [done|]. split; [done|].
    rewrite Hr. cbn [String.length]. lia.
Qed.

(** [s.rfind(c)] is -1 when [c] is not in [s], else the length of what
    comes before the last [c]. *)
Lemma rfind_spec c s :
  (contains_char c s = false /\ rfind s c = -1) \/
  (exists a b, s = a +:+ String c b /\ contains_char c b = false /\
               rfind s c = Z.of_nat (String.length a)).
Proof.
  unfold rfind.
  destruct (rfind_from_spec c s 0 (-1)) as [?|(a & b & ? & ? & Hr)]; [by left|].
  right. exists a, b. by rewrite Hr.
Qed.

Lemma str_drop_app (a b : string) : str_drop (String.length a) (a +:+ b) = b.
Proof. induction a as [|c a IH]; [by destruct b|]. by rewrite app_cons. Qed.

Lemma str_take_app (a b : string) : str_take (String.length a) (a +:+ b) = a.
Proof.
  induction a as [|c a IH]; [by destruct b|].
  rewrite app_cons. cbn [String.length str_take]. by rewrite IH.
Qed.

Lemma str_take_drop (n : nat) (s : string) : str_take n s +:+ str_drop n s = s.
Proof.
  revert s. induction n as [|n IH]; intros s; [done|].
  destruct s as [|c s]; [done|]. cbn [str_take str_drop].
  by rewrite app_cons, IH.
Qed.

Lemma contains_char_take c n s :
  contains_char c s = false -> contains_char c (str_take n s) = false.
Proof.
  revert s. induction n as [|n IH]; intros s; [done|].
  destruct s as [|c' s]; [done|]. cbn [str_take contains_char].
  intros [-> Hs]%orb_false_iff. by apply IH.
Qed.

(** [basename(p)] is [p] when [p] has no slash, else what follows the
    last slash. *)
Lemma basename_spec p :
  (contains_char slash p = false /\ basename p = p) \/
  (exists d f, p = d +:+ String slash f /\ contains_char slash f = false /\
               basename p = f).
Proof.
  unfold basename.
  destruct (rfind_spec slash p) as [[Hp ->]|(d & f & -> & Hf & ->)].
  - by left.
  - right. exists d, f. split; [done|]. split; [done|].
    replace (Z.to_nat (Z.of_nat (String.length d) + 1))
      with (String.length (d +:+ String slash EmptyString)).
    + rewrite <- (str_drop_app (d +:+ String slash EmptyString) f) at 2.
      f_equal. clear. induction d as [|c d IH]; [done|]. by rewrite !app_cons, IH.
    + clear. induction d as [|c d IH]; [done|].
      rewrite app_cons. cbn [String.length]. rewrite IH. lia.
Qed.

Lemma basename_no_slash p : contains_char slash (basename p) = false.
Proof.
  destruct (basename_spec p) as [[Hp ->]|(d & f & _ & Hf & ->)]; done.
Qed.

(** What [splitext] returns: the two parts make up the argument, and
    the extension is empty or a dot followed by a text without dot. *)
Lemma splitext_spec b :
  fst (splitext b) +:+ snd (splitext b) = b /\
  (snd (splitext b) = EmptyString \/
   exists e, snd (splitext b) = String dot e /\ contains_char dot e = false).
Proof.
  unfold splitext. cbv zeta.
  destruct (_ && _) eqn:Hc; cbn [fst snd].
  - split; [apply str_take_drop|]. right.
    apply andb_true_iff in Hc as [Hlt%Z.ltb_lt _].
    destruct (rfind_spec dot b) as [[_ Hr]|(a & e & -> & He & Hr)].
    + destruct (rfind_spec slash b) as [[_ Hs]|(? & ? & _ & _ & Hs)]; lia.
    + exists e. split; [|done]. rewrite Hr, Nat2Z.id. apply str_drop_app.
  - split; [|by left]. clear. induction b as [|c b IH]; [done|].
    by rewrite app_cons, IH.
Qed.

Lemma splitext_no_slash b :
  contains_char slash b = false -> contains_char slash (fst (splitext b)) = false.
Proof.
  intros Hb. unfold splitext. cbv zeta.
  destruct (_ && _); cbn [fst]; [by apply contains_char_take | done].
Qed.

(** X18.  The processor leaves [path] as it is and sets [name] to the
    last component of the path without its extension: the name has no
    slash, and the last component is the name followed by nothing or by
    a dot and a text without dot. *)
Theorem X18_name_of_a_listing_entry (listing_api : ListingApiJson) :
  listing_path (process_resource_listing_api listing_api) = listing_path listing_api /\
  exists nm ext,
    listing_name (process_resource_listing_api listing_api) = Some nm /\
    basename (listing_path listing_api) = nm +:+ ext /\
    contains_char slash nm = false /\
    (ext = EmptyString \/ exists e, ext = String dot e /\ contains_char dot e = false).
Proof.
  split; [done|].
  destruct (splitext_spec (basename (listing_path listing_api))) as [Hcat Hext].
  exists (fst (splitext (basename (listing_path listing_api)))),
         (snd (splitext (basename (listing_path listing_api)))).
  split; [done|]. split; [done|]. split; [|done].
  apply splitext_no_slash, basename_no_slash.
Qed.

Lemma basename_last_component d f :
  contains_char slash f = false -> basename (d +:+ String slash f) = f.
Proof.
  intros Hf. unfold basename, rfind.
  rewrite rfind_from_app. cbn [rfind_from]. rewrite (proj2 (Ascii.eqb_eq _ _) eq_refl).
  rewrite rfind_from_absent by done.
  replace (Z.to_nat (0 + Z.of_nat (String.length d) + 1))
    with (String.length (d +:+ String slash EmptyString)).
  - rewrite <- (str_drop_app (d +:+ String slash EmptyString) f) at 2.
    f_equal. clear. induction d as [|c d IH]; [done|]. by rewrite !app_cons, IH.
  - clear. induction d as [|c d IH]; [done|].
    rewrite app_cons. cbn [String.length]. rewrite IH. lia.
Qed.

(** X19.  The name only depends on the last component of the path: two
    entries whose paths end in the same file name, in whatever
    directories, are given the same name. *)
Theorem X19_name_ignores_the_directory (d1 d2 f : string)
    (n1 n2 : option string) :
  contains_char slash f = false ->
  listing_name (process_resource_listing_api
                  {| listing_path := d1 +:+ String slash f; listing_name := n1 |})
  = listing_name (process_resource_listing_api
                    {| listing_path := d2 +:+ String slash f; listing_name := n2 |}).
Proof.
  intros Hf. unfold process_resource_listing_api. cbn [listing_path listing_name].
  by rewrite !basename_last_component.
Qed.

Lemma X19_name_ignores_the_directory_witness :
  contains_char slash "things.json" = false /\
  listing_name (process_resource_listing_api
                  {| listing_path := "/api-docs/things.json"; listing_name := None |})
  = listing_name (process_resource_listing_api
                    {| listing_path := "http://x/v2/things.json";
                       listing_name := Some "old" |}).
Proof.
  assert (H1 : contains_char slash "things.json" = false) by reflexivity.
  split; [exact H1|].
  exact (X19_name_ignores_the_directory "/api-docs" "http://x/v2" "things.json"
           None (Some "old") H1).
Defined.

Example name_of_json_file :
  listing_name (process_resource_listing_api
                  {| listing_path := "/api-docs/things.json"; listing_name := None |})
  = Some "things".
Proof. reflexivity. Qed.

Example name_of_dot_file :
  listing_name (process_resource_listing_api
                  {| listing_path := "/api-docs/.hidden"; listing_name := None |})
  = Some ".hidden".
Proof. reflexivity. Qed.

Example name_of_directory :
  listing_name (process_resource_listing_api
                  {| listing_path := "/api-docs/"; listing_name := None |})
  = Some EmptyString.
Proof. reflexivity. Qed.

(** * A path value in the URL *)

(** X20.  For an operation that declares one [path] parameter, the URL
    of the request is [self.uri] in which every [{name}] is replaced by
    [quote_plus(str(value))], followed by [?]: in the path too a space
    is sent as [+] and a slash as [%2F]. *)
Theorem X20_path_value_is_quoted (self : Operation) (p : ParamJson)
    (v v' : value) :
  declared self = [p] ->
  paramType p = "path" ->
  is_None v = false ->
  join_list v = Ok v' ->
  call_url <$> Operation_call self {[ param_name p := v ]}
  = Ok (str_replace (op_uri self) ("{" +:+ param_name p +:+ "}")
                    (quote_plus (py_str v')) +:+ "?").
Proof.
  intros Hd Hp Hn Hj. unfold Operation_call, bind. rewrite Hd. cbn [foldM].
  rewrite (bind_param_bound _ _ _ v v') by (done || apply lookup_singleton_eq).
  unfold place. rewrite decide_True by done.
  cbn [mbind Result_bind]. unfold del_kwarg. cbn [locals0 kwargs uri params data].
  rewrite delete_singleton_eq, synthesize_no_body_url by done.
  cbn [uri params]. by rewrite urlencode_empty.
Qed.

Lemma X20_path_value_is_quoted_witness :
  declared getThing = [param "id" "path" true] /\
  call_url <$> Operation_call getThing {[ "id" := VStr "a b/c" ]}
  = Ok "http://x/api/things/a+b%2Fc?".
Proof.
  assert (H1 : declared getThing = [param "id" "path" true]) by reflexivity.
  split; [exact H1|].
  exact (X20_path_value_is_quoted getThing (param "id" "path" true)
           (VStr "a b/c") (VStr "a b/c") H1 eq_refl eq_refl eq_refl).
Defined.
